(** * Lateralization Lab Statistical Reporter

    A shallow embedding of the statistics engine and of the result
    formatter of [src/app/page.tsx].  JavaScript numbers are IEEE-754
    binary64 values, modelled by Rocq's primitive [float]; the operations
    [+ - * /], [Math.sqrt] and [Math.abs] are the correctly rounded
    primitives, whose behaviour is fixed by [FloatAxioms] in terms of
    [SpecFloat].  The transcendental functions and the string built-ins
    that ECMAScript leaves to the implementation are fields of a [Host]
    record: every statement holds for every host. *)

From Stdlib Require Import ZArith List Floats String Ascii Lia Bool DecimalString.
From Stdlib Require Uint63.
From stdpp Require Import base gmap strings.
Import ListNotations.

Set Warnings "-inexact-float".
Local Open Scope float_scope.

(** ** JavaScript numbers *)

Module JS.

(** [Number.isFinite]. *)
Definition Number_isFinite (x : float) : bool := is_finite x.

Definition is_neg_zero (x : float) : bool := is_zero x && get_sign x.
Definition is_pos_zero (x : float) : bool := is_zero x && negb (get_sign x).

(** [Math.max(x, y)]: NaN is contagious and [+0] is larger than [-0]. *)
Definition Math_max (x y : float) : float :=
  if is_nan x || is_nan y then nan
  else if x <? y then y
  else if is_pos_zero y && is_neg_zero x then y
  else x.

(** [Math.min(x, y)]: NaN is contagious and [-0] is smaller than [+0]. *)
Definition Math_min (x y : float) : float :=
  if is_nan x || is_nan y then nan
  else if y <? x then y
  else if is_neg_zero y && is_pos_zero x then y
  else x.

Definition Math_abs (x : float) : float := abs x.
Definition Math_sqrt (x : float) : float := sqrt x.
Definition Math_PI : float := 3.141592653589793.

(** [x ** 2], computed as the correctly rounded product [x * x]. *)
Definition pow2 (x : float) : float := x * x.

(** An array length or a loop counter, as a number. *)
Definition Number_of_nat (n : nat) : float := of_uint63 (Uint63.of_Z (Z.of_nat n)).

(** [v || 0] on numbers: the falsy numbers are [0], [-0] and [NaN]. *)
Definition or_zero (v : float) : float := if is_nan v || is_zero v then 0 else v.

(** [arr[i]] read inside an arithmetic expression: a missing element is
    [undefined], which coerces to [NaN]. *)
Definition index (arr : list float) (i : nat) : float := nth i arr nan.

(** [SameValueZero]: equality of numbers that identifies [+0] with [-0]
    and [NaN] with itself. *)
Definition SameValueZero (x y : float) : bool := (x =? y) || (is_nan x && is_nan y).

End JS.
Import JS.

(** The built-ins whose results ECMAScript leaves to the implementation. *)
Record Host := {
  Math_log : float -> float;
  Math_exp : float -> float;
  Math_sin : float -> float;
  (** [Number::toString] of a finite number that is not a safe integer *)
  Number_toString_shortest : float -> string;
  (** [Number(s)] on a string *)
  Number_ofString : string -> float;
  String_trim : string -> string;
  (** [s.split(/\s+/)] *)
  String_split_ws : string -> list string;
  String_toUpperCase : string -> string;
  String_toLowerCase : string -> string;
  (** [String(Object.prototype[name])], for a member [name] of
      [Object.prototype] *)
  String_ofMember : string -> string;
  (** the message of the [TypeError] raised by [.trim()] called on
      [Object.prototype[name]], which has no [trim] *)
  trim_TypeError : string -> string
}.

(** ** NumericSummary *)

Record NumericSummary := { s_n : float; s_mean : float; s_sd : float; s_se : float }.

Definition mean (arr : list float) : float :=
  fold_left (fun a b => a + b) arr 0 / Number_of_nat (length arr).

Definition varianceSample (arr : list float) : float :=
  let m := mean arr in
  fold_left (fun acc v => acc + pow2 (v - m)) arr 0 / (Number_of_nat (length arr) - 1).

Definition sd (arr : list float) : float := Math_sqrt (varianceSample arr).

Definition summarize (arr : list float) : NumericSummary :=
  let n := Number_of_nat (length arr) in
  let m := mean arr in
  let s := sd arr in
  let se := s / Math_sqrt n in
  {| s_n := n; s_mean := m; s_sd := s; s_se := se |}.

Definition clamp (x lo hi : float) : float := Math_max lo (Math_min hi x).

(** ** Special functions *)

Definition MAX_ITER : nat := 200.
Definition EPS : float := 3e-12.
Definition FPMIN : float := 1e-30.

(** [if (Math.abs(v) < FPMIN) v = FPMIN]. *)
Definition floor_FPMIN (v : float) : float := if Math_abs v <? FPMIN then FPMIN else v.

(** The loop variables [c], [d], [h] of [betacf]. *)
Record Lentz := { cf_c : float; cf_d : float; cf_h : float }.

Section Engine.
Context (host : Host).

Definition lanczos_p : list float :=
  [ 676.5203681218851; -1259.1392167224028; 771.3234287776531;
    -176.6150291621406; 12.507343278686905; -0.13857109526572012;
    9.984369578019572e-6; 1.5056327351493116e-7 ].

(** The branch of [logGamma] for [z >= 0.5] (and for NaN). *)
Definition logGamma_lanczos (z : float) : float :=
  let z := z - 1 in
  let x :=
    fold_left (fun x ip => x + snd ip / (z + Number_of_nat (fst ip) + 1))
              (combine (seq 0 (length lanczos_p)) lanczos_p)
              0.9999999999998099 in
  let t := z + Number_of_nat (length lanczos_p) - 0.5 in
  0.5 * Math_log host (2 * Math_PI) + (z + 0.5) * Math_log host t - t + Math_log host x.

(** [logGamma] reflects an argument below [0.5] to [1 - z] and calls
    itself; [depth] bounds the nesting of these calls. *)
Fixpoint logGamma_rec (depth : nat) (z : float) : float :=
  if z <? 0.5 then
    match depth with
    | S depth' =>
        Math_log host Math_PI
        - Math_log host (Math_sin host (Math_PI * z))
        - logGamma_rec depth' (1 - z)
    | O => nan
    end
  else logGamma_lanczos z.

Definition logGamma (z : float) : float := logGamma_rec 1 z.

(** One pass through the body of the [for] loop of [betacf], for the
    counter value [m]; returns the updated variables and [del]. *)
Definition betacf_body (a b x : float) (m : nat) (st : Lentz) : Lentz * float :=
  let qab := a + b in
  let qap := a + 1 in
  let qam := a - 1 in
  let m := Number_of_nat m in
  let m2 := 2 * m in
  let aa := (m * (b - m) * x) / ((qam + m2) * (a + m2)) in
  let d := 1 + aa * cf_d st in
  let d := floor_FPMIN d in
  let c := 1 + aa / cf_c st in
  let c := floor_FPMIN c in
  let d := 1 / d in
  let h := cf_h st * (d * c) in
  let aa := (- (a + m) * (qab + m) * x) / ((a + m2) * (qap + m2)) in
  let d := 1 + aa * d in
  let d := floor_FPMIN d in
  let c := 1 + aa / c in
  let c := floor_FPMIN c in
  let d := 1 / d in
  let del := d * c in
  let h := h * del in
  ({| cf_c := c; cf_d := d; cf_h := h |}, del).

(** [Math.abs(del - 1) < EPS], the [break] test. *)
Definition converged (del : float) : bool := Math_abs (del - 1) <? EPS.

(** The [for (let m = 1; m <= MAX_ITER; m++)] loop over the counter
    values still to come; returns the final variables and the number of
    passes made. *)
Fixpoint betacf_for (a b x : float) (ms : list nat) (st : Lentz) (passes : nat)
  : Lentz * nat :=
  match ms with
  | [] => (st, passes)
  | m :: ms' =>
      let '(st', del) := betacf_body a b x m st in
      if converged del then (st', S passes)
      else betacf_for a b x ms' st' (S passes)
  end.

Definition betacf_init (a b x : float) : Lentz :=
  let qab := a + b in
  let qap := a + 1 in
  let c := 1 in
  let d := 1 - (qab * x) / qap in
  let d := floor_FPMIN d in
  let d := 1 / d in
  let h := d in
  {| cf_c := c; cf_d := d; cf_h := h |}.

Definition betacf_run (a b x : float) : Lentz * nat :=
  betacf_for a b x (seq 1 MAX_ITER) (betacf_init a b x) 0.

Definition betacf (a b x : float) : float := cf_h (fst (betacf_run a b x)).

(** The number of passes through the loop body that [betacf] makes. *)
Definition betacf_passes (a b x : float) : nat := snd (betacf_run a b x).

Definition regIncompleteBeta (a b x : float) : float :=
  let xx := clamp x 0 1 in
  if xx =? 0 then 0
  else if xx =? 1 then 1
  else
    let bt :=
      or_zero
        (Math_exp host
           (logGamma (a + b) - logGamma a - logGamma b
            + a * Math_log host xx
            + b * Math_log host (1 - xx))) in
    if xx <? (a + 1) / (a + b + 2) then (bt * betacf a b xx) / a
    else 1 - (bt * betacf b a (1 - xx)) / b.

Definition studentTCdf (t df : float) : float :=
  let x := df / (df + t * t) in
  let a := df / 2 in
  let b := 0.5 in
  let ib := regIncompleteBeta a b x in
  if 0 <=? t then 1 - 0.5 * ib else 0.5 * ib.

Definition pTwoSidedFromT (t df : float) : float :=
  let cdf := studentTCdf (Math_abs t) df in
  clamp (2 * (1 - cdf)) 0 1.

End Engine.

(** ** Test procedures *)

Record PairedResult := { pr_t : float; pr_df : float; pr_p : float; pr_d : float }.
Record OneSampleResult :=
  { os_t : float; os_df : float; os_p : float; os_d : float; os_s : NumericSummary }.
Record WelchResult :=
  { w_t : float; w_df : float; w_p : float; w_g : float;
    w_sa : NumericSummary; w_sb : NumericSummary }.
Record PearsonResult := { pc_r : float; pc_t : float; pc_df : float; pc_p : float }.

Section Procedures.
Context (host : Host).

Definition pairedTTest (a b : list float) : PairedResult :=
  let diffs := imap (fun i v => v - index b i) a in
  let s := summarize diffs in
  let t := s_mean s / (s_sd s / Math_sqrt (s_n s)) in
  let df := s_n s - 1 in
  let p := pTwoSidedFromT host t df in
  let d := s_mean s / s_sd s in
  {| pr_t := t; pr_df := df; pr_p := p; pr_d := d |}.

Definition oneSampleT (arr : list float) (mu : float) : OneSampleResult :=
  let s := summarize arr in
  let t := (s_mean s - mu) / (s_sd s / Math_sqrt (s_n s)) in
  let df := s_n s - 1 in
  let p := pTwoSidedFromT host t df in
  let d := (s_mean s - mu) / s_sd s in
  {| os_t := t; os_df := df; os_p := p; os_d := d; os_s := s |}.

Definition welchTTest (a b : list float) : WelchResult :=
  let sa := summarize a in
  let sb := summarize b in
  let va := pow2 (s_sd sa) in
  let vb := pow2 (s_sd sb) in
  let t := (s_mean sa - s_mean sb) / Math_sqrt (va / s_n sa + vb / s_n sb) in
  let num := pow2 (va / s_n sa + vb / s_n sb) in
  let den :=
    pow2 va / (pow2 (s_n sa) * (s_n sa - 1)) +
    pow2 vb / (pow2 (s_n sb) * (s_n sb - 1)) in
  let df := num / den in
  let p := pTwoSidedFromT host t df in
  let sp :=
    Math_sqrt (((s_n sa - 1) * va + (s_n sb - 1) * vb) / (s_n sa + s_n sb - 2)) in
  let d := (s_mean sa - s_mean sb) / sp in
  let J := 1 - 3 / (4 * (s_n sa + s_n sb) - 9) in
  let g := d * J in
  {| w_t := t; w_df := df; w_p := p; w_g := g; w_sa := sa; w_sb := sb |}.

(** The sums [num], [dx], [dy] accumulated by the loop of
    [pearsonCorrelation]. *)
Definition pearson_sums (x y : list float) (mx my : float) : float * float * float :=
  fold_left
    (fun '(num, dx, dy) i =>
       let vx := index x i - mx in
       let vy := index y i - my in
       (num + vx * vy, dx + vx * vx, dy + vy * vy))
    (seq 0 (length x)) (0, 0, 0).

Definition pearsonCorrelation (x y : list float) : PearsonResult :=
  let n := Number_of_nat (length x) in
  let mx := mean x in
  let my := mean y in
  let '(num, dx, dy) := pearson_sums x y mx my in
  let r := num / Math_sqrt (dx * dy) in
  let df := n - 2 in
  let t := r * Math_sqrt (df / (1 - r * r)) in
  let p := pTwoSidedFromT host t df in
  {| pc_r := r; pc_t := t; pc_df := df; pc_p := p |}.

End Procedures.

(** ** Result formatting *)

Section Formatter.
Context (host : Host).
Local Open Scope string_scope.

(** Decimal digits of a non-negative integer. *)
Definition digits_of_Z (z : Z) : string := NilZero.string_of_int (Z.to_int z).

(** The integer a finite number [m * 2^e] stands for, when it is one. *)
Definition integer_value (m : positive) (e : Z) : option Z :=
  if (0 <=? e)%Z then Some (Zpos m * 2 ^ e)%Z
  else if (Zpos m mod 2 ^ (- e) =? 0)%Z then Some (Zpos m / 2 ^ (- e))%Z
  else None.

(** [Number::toString] of a positive finite number [m * 2^e]: the digits of
    a safe integer; anything else is the host's shortest round-trip
    rendering. *)
Definition positive_toString (m : positive) (e : Z) : string :=
  match integer_value m e with
  | Some z =>
      if (z <? 2 ^ 53)%Z then digits_of_Z z
      else Number_toString_shortest host (SF2Prim (S754_finite false m e))
  | None => Number_toString_shortest host (SF2Prim (S754_finite false m e))
  end.

(** [Number::toString], as used by string concatenation. *)
Definition Number_toString (x : float) : string :=
  match Prim2SF x with
  | S754_nan => "NaN"
  | S754_zero _ => "0"
  | S754_infinity false => "Infinity"
  | S754_infinity true => "-Infinity"
  | S754_finite s m e => (if s then "-" else "") ++ positive_toString m e
  end.

(** The integer [n] for which [n / 10^f - m * 2^e] is closest to zero, the
    larger one when there are two. *)
Definition toFixed_round (m : positive) (e : Z) (f : nat) : Z :=
  let num := (Zpos m * 10 ^ Z.of_nat f)%Z in
  if (0 <=? e)%Z then (num * 2 ^ e)%Z
  else ((2 * num + 2 ^ (- e)) / 2 ^ (- e + 1))%Z.

(** [m * 2^e >= 10^21]. *)
Definition at_least_1e21 (m : positive) (e : Z) : bool :=
  if (0 <=? e)%Z then (10 ^ 21 <=? Zpos m * 2 ^ e)%Z
  else (10 ^ 21 * 2 ^ (- e) <=? Zpos m)%Z.

Fixpoint zeros (k : nat) : string :=
  match k with O => "" | S k' => "0" ++ zeros k' end.

(** The digits of [n] with a decimal point before the last [f] of them. *)
Definition place_point (n : Z) (f : nat) : string :=
  let m := digits_of_Z n in
  match f with
  | O => m
  | S _ =>
      let k := String.length m in
      let m := if (k <=? f)%nat then zeros (f + 1 - k) ++ m else m in
      let k := String.length m in
      substring 0 (k - f) m ++ "." ++ substring (k - f) f m
  end.

(** [x.toFixed(f)] for [0 <= f <= 100]. *)
Definition Number_toFixed (x : float) (f : nat) : string :=
  match Prim2SF x with
  | S754_finite s m e =>
      (if s then "-" else "") ++
      (if at_least_1e21 m e then positive_toString m e
       else place_point (toFixed_round m e f) f)
  | S754_zero _ => place_point 0 f
  | _ => Number_toString x
  end.

(** [s.replace(/^0/, "")]. *)
Definition strip_leading_0 (s : string) : string :=
  match s with
  | String "0" rest => rest
  | _ => s
  end.

Definition fmt (x : float) : string :=
  if Number_isFinite x then Number_toFixed x 2 else "NA".

Definition fmtP (p : float) : string :=
  if negb (Number_isFinite p) then "NA"
  else if (p <? 0.001)%float then "< .001"
  else strip_leading_0 (Number_toFixed p 3).

(** Strings are kept in UTF-8. The number of bytes of the character whose
    first byte is [c]: one or two UTF-16 units. *)
Definition utf8_length (c : ascii) : nat :=
  let n := nat_of_ascii c in
  if (n <? 192)%nat then 1%nat
  else if (n <? 224)%nat then 2%nat
  else if (n <? 240)%nat then 3%nat
  else 4%nat.

(** [w[0].toUpperCase() + w.slice(1).toLowerCase()] for a non-empty [w]:
    [w[0]] is the first UTF-16 unit. It is the whole first character when
    that character is in the basic plane (up to three bytes); otherwise it
    is a lone surrogate, which has no case mapping, as the second surrogate
    that starts [w.slice(1)] has none: the character is kept as it is. *)
Definition capitalize (w : string) : string :=
  match w with
  | EmptyString => w
  | String c _ =>
      let k := utf8_length c in
      let first := substring 0 k w in
      let rest := substring k (String.length w - k) w in
      (if (k <? 4)%nat then String_toUpperCase host first else first)
      ++ String_toLowerCase host rest
  end.

Definition titleCase (s : string) : string :=
  String.concat " " (map capitalize (String_split_ws host s)).

End Formatter.

(** ** The page: rows, selections and the computed output *)

Inductive AnalysisType := paired | onesample | independent | correlation.

Record BarDatum := { bar_name : string; bar_Mean : float; bar_SE : float }.

Inductive Output :=
| Out_paired (barData : list BarDatum) (apa : string)
| Out_onesample (apa : string)
| Out_independent (barData : list BarDatum) (apa : string)
| Out_correlation (pts : list (float * float)) (apa : string)
| Out_error (message : string).

(** The component state read by [output]. *)
Record PageState := {
  rows : list (gmap string string);
  analysis : AnalysisType;
  pairedA : string; pairedB : string;
  oneVar : string; oneMu : string;
  groupOutcome : string; groupVar : string; groupA : string; groupB : string;
  corrX : string; corrY : string
}.

(** The four test procedures, as [output] calls them. *)
Record Procedures := {
  run_paired : list float -> list float -> PairedResult;
  run_onesample : list float -> float -> OneSampleResult;
  run_welch : list float -> list float -> WelchResult;
  run_pearson : list float -> list float -> PearsonResult
}.

Definition engine (host : Host) : Procedures :=
  {| run_paired := pairedTTest host;
     run_onesample := oneSampleT host;
     run_welch := welchTTest host;
     run_pearson := pearsonCorrelation host |}.

(** ** Errors

    A computation that may throw: [inl message] is a thrown error with that
    message, the only part of it that [output] reads. *)
Definition bind {A B : Type} (x : string + A) (f : A -> string + B) : string + B :=
  match x with
  | inl message => inl message
  | inr a => f a
  end.

Declare Scope try_scope.
Delimit Scope try_scope with try.
Notation "'let*' x ':=' e 'in' k" := (bind e (fun x => k))
  (at level 10, x pattern, e at level 200, k at level 200, only parsing) : try_scope.

(** The members of [Object.prototype] (ECMAScript, with its annex B),
    which every row inherits. *)
Definition Object_prototype : list string :=
  [ "constructor"; "__defineGetter__"; "__defineSetter__"; "hasOwnProperty";
    "__lookupGetter__"; "__lookupSetter__"; "isPrototypeOf"; "propertyIsEnumerable";
    "toString"; "valueOf"; "__proto__"; "toLocaleString" ]%string.

Definition inherited (col : string) : bool := existsb (String.eqb col) Object_prototype.

(** What [r[col] ?? ""] evaluates to: a string, or a member of
    [Object.prototype] (a function, and the prototype itself for
    [__proto__]). *)
Inductive Value := Str (s : string) | Member (name : string).

Section Page.
Context (host : Host).
Local Open Scope string_scope.
Local Open Scope try_scope.

(** [r[col] ?? ""]: the row's own field; else the inherited member when
    [Object.prototype] has one of that name; else [undefined], replaced by
    the empty string. *)
Definition cell (r : gmap string string) (col : string) : Value :=
  match r !! col with
  | Some s => Str s
  | None => if inherited col then Member col else Str ""
  end.

(** [String(v)]. *)
Definition String_of (v : Value) : string :=
  match v with
  | Str s => s
  | Member name => String_ofMember host name
  end.

(** A non-empty string is truthy. *)
Definition truthy (s : string) : bool := negb (String.eqb s "").

(** [toNumberMaybe]; [inr None] is [null]. A member of [Object.prototype]
    is not nullish and has no [trim]: the call throws a [TypeError]. *)
Definition toNumberMaybe (v : Value) : string + option float :=
  match v with
  | Member name => inl (trim_TypeError host name)
  | Str v =>
      let s := String_trim host v in
      if negb (truthy s) then inr None
      else
        let n := Number_ofString host s in
        if Number_isFinite n then inr (Some n) else inr None
  end.

(** [rows.map(...).filter(...)]: the rows are read in order, and the first
    cell that throws ends the extraction. *)
Fixpoint getVector (rs : list (gmap string string)) (col : string) : string + list float :=
  match rs with
  | [] => inr []
  | r :: rest =>
      let* v := toNumberMaybe (cell r col) in
      let* vec := getVector rest col in
      inr (match v with Some n => n :: vec | None => vec end)
  end.

Fixpoint getPaired (rs : list (gmap string string)) (aCol bCol : string)
  : string + list float * list float :=
  match rs with
  | [] => inr ([], [])
  | r :: rest =>
      let* va := toNumberMaybe (cell r aCol) in
      let* vb := toNumberMaybe (cell r bCol) in
      let* (a, b) := getPaired rest aCol bCol in
      inr match va, vb with
          | Some va, Some vb => (va :: a, vb :: b)
          | _, _ => (a, b)
          end
  end.

Fixpoint getGrouped (rs : list (gmap string string)) (outcome gVar A B : string)
  : string + list float * list float :=
  match rs with
  | [] => inr ([], [])
  | r :: rest =>
      let g := String_trim host (String_of (cell r gVar)) in
      let* v := toNumberMaybe (cell r outcome) in
      let* (a, b) := getGrouped rest outcome gVar A B in
      inr match v with
          | None => (a, b)
          | Some v =>
              (if String.eqb g A then v :: a else a,
               if String.eqb g B then v :: b else b)
          end
  end.

(** The rows with a number in both correlation columns. *)
Fixpoint getPoints (rs : list (gmap string string)) (xCol yCol : string)
  : string + list (float * float) :=
  match rs with
  | [] => inr []
  | r :: rest =>
      let* x := toNumberMaybe (cell r xCol) in
      let* y := toNumberMaybe (cell r yCol) in
      let* pts := getPoints rest xCol yCol in
      inr match x, y with
          | Some x, Some y => (x, y) :: pts
          | _, _ => pts
          end
  end.

Context (E : Procedures).

(** The body of the [try] block for each analysis, from the extracted
    vectors on; [inl message] is [throw new Error(message)]. *)
Definition analyse_paired (nameA nameB : string) (a b : list float) : string + Output :=
  if (length a <? 3)%nat then inl "Not enough paired rows."
  else
    let sa := summarize a in
    let sb := summarize b in
    let res := run_paired E a b in
    let barData :=
      [ {| bar_name := nameA; bar_Mean := s_mean sa; bar_SE := s_se sa |};
        {| bar_name := nameB; bar_Mean := s_mean sb; bar_SE := s_se sb |} ] in
    let apa :=
      "A paired-samples t-test compared " ++ nameA ++
      " (M = " ++ fmt host (s_mean sa) ++
      ", SD = " ++ fmt host (s_sd sa) ++
      ") and " ++ nameB ++
      " (M = " ++ fmt host (s_mean sb) ++
      ", SD = " ++ fmt host (s_sd sb) ++
      "). The analysis yielded t(" ++ Number_toString host (pr_df res) ++
      ") = " ++ Number_toFixed host (pr_t res) 2 ++
      ", p = " ++ fmtP host (pr_p res) ++
      ", d = " ++ Number_toFixed host (pr_d res) 2 ++
      "." in
    inr (Out_paired barData apa).

Definition analyse_onesample (name muText : string) (vec : list float) : string + Output :=
  if (length vec <? 3)%nat then inl "Not enough numeric rows."
  else
    let mu := Number_ofString host muText in
    if negb (Number_isFinite mu) then inl "μ0 must be a number."
    else
      let res := run_onesample E vec mu in
      let apa :=
        "A one-sample t-test evaluated whether " ++ name ++
        " differed from " ++ Number_toString host mu ++
        ". The analysis yielded t(" ++ Number_toString host (os_df res) ++
        ") = " ++ Number_toFixed host (os_t res) 2 ++
        ", p = " ++ fmtP host (os_p res) ++
        ", d = " ++ Number_toFixed host (os_d res) 2 ++
        "." in
      inr (Out_onesample apa).

Definition analyse_independent (outcome nameA nameB : string) (a b : list float)
  : string + Output :=
  if (length a <? 2)%nat || (length b <? 2)%nat
  then inl "Each group needs at least 2 observations."
  else
    let res := run_welch E a b in
    let barData :=
      [ {| bar_name := nameA; bar_Mean := s_mean (w_sa res); bar_SE := s_se (w_sa res) |};
        {| bar_name := nameB; bar_Mean := s_mean (w_sb res); bar_SE := s_se (w_sb res) |} ] in
    let apa :=
      "An independent-samples t-test (Welch) compared " ++ outcome ++
      " between " ++ titleCase host nameA ++
      " (M = " ++ fmt host (s_mean (w_sa res)) ++
      ", SD = " ++ fmt host (s_sd (w_sa res)) ++
      ") and " ++ titleCase host nameB ++
      " (M = " ++ fmt host (s_mean (w_sb res)) ++
      ", SD = " ++ fmt host (s_sd (w_sb res)) ++
      "). The analysis yielded t(" ++ Number_toFixed host (w_df res) 1 ++
      ") = " ++ Number_toFixed host (w_t res) 2 ++
      ", p = " ++ fmtP host (w_p res) ++
      ", g = " ++ Number_toFixed host (w_g res) 2 ++
      "." in
    inr (Out_independent barData apa).

Definition analyse_correlation (nameX nameY : string) (pts : list (float * float))
  : string + Output :=
  if (length pts <? 4)%nat then inl "Not enough paired rows for correlation."
  else
    let x := map fst pts in
    let y := map snd pts in
    let res := run_pearson E x y in
    let apa :=
      "A Pearson correlation examined the association between " ++ nameX ++
      " and " ++ nameY ++
      ". The correlation was r(" ++ Number_toString host (pc_df res) ++
      ") = " ++ Number_toFixed host (pc_r res) 2 ++
      ", p = " ++ fmtP host (pc_p res) ++
      "." in
    inr (Out_correlation pts apa).

(** [!groupVar || !groupA || !groupB || groupA === groupB]. *)
Definition groups_unselected (st : PageState) : bool :=
  negb (truthy (groupVar st)) || negb (truthy (groupA st)) || negb (truthy (groupB st))
  || String.eqb (groupA st) (groupB st).

(** The [try] block of [output]: the columns are read first, which throws
    a [TypeError] on a cell inherited from [Object.prototype]; the guards
    and the test procedure come after. *)
Definition output_try (st : PageState) : string + Output :=
  match analysis st with
  | paired =>
      let* (a, b) := getPaired (rows st) (pairedA st) (pairedB st) in
      analyse_paired (pairedA st) (pairedB st) a b
  | onesample =>
      let* vec := getVector (rows st) (oneVar st) in
      analyse_onesample (oneVar st) (oneMu st) vec
  | independent =>
      if groups_unselected st then inl "Select two different groups."
      else
        let* (a, b) :=
          getGrouped (rows st) (groupOutcome st) (groupVar st) (groupA st) (groupB st) in
        analyse_independent (groupOutcome st) (groupA st) (groupB st) a b
  | correlation =>
      let* pts := getPoints (rows st) (corrX st) (corrY st) in
      analyse_correlation (corrX st) (corrY st) pts
  end.

(** [output]: [None] is [null]; a thrown error, a [TypeError] as well as
    an [Error] of a guard, is caught and reported as the [error] kind with
    its message. *)
Definition output_with (st : PageState) : option Output :=
  match rows st with
  | [] => None
  | _ :: _ =>
      Some match output_try st with
           | inl message => Out_error message
           | inr out => out
           end
  end.

End Page.

Definition output (host : Host) (st : PageState) : option Output :=
  output_with host (engine host) st.

(** ** Reading the upload: [parseCSV] and [handleFile] *)

(** [c] followed by the first piece of [pieces]. *)
Definition push_char (c : ascii) (pieces : list string) : list string :=
  match pieces with
  | piece :: rest => String c piece :: rest
  | [] => [String c EmptyString]
  end.

(** [s.split(/\r?\n/)]: a line feed, with the carriage return before it
    when there is one, ends a piece. *)
Fixpoint split_lines (s : string) : list string :=
  match s with
  | EmptyString => [EmptyString]
  | String c rest =>
      if Ascii.eqb c "010" then EmptyString :: split_lines rest
      else
        match rest with
        | String c' rest' =>
            if Ascii.eqb c "013" && Ascii.eqb c' "010"
            then EmptyString :: split_lines rest'
            else push_char c (split_lines rest)
        | EmptyString => push_char c (split_lines rest)
        end
  end.

(** [s.split(",")]. *)
Fixpoint split_commas (s : string) : list string :=
  match s with
  | EmptyString => [EmptyString]
  | String c rest =>
      if Ascii.eqb c "," then EmptyString :: split_commas rest
      else push_char c (split_commas rest)
  end.

(** [row[h] = v] on a plain object: the inherited setter of [__proto__]
    ignores a string, so that key is never created. *)
Definition set_field (row : gmap string string) (h v : string) : gmap string string :=
  if String.eqb h "__proto__" then row else <[h := v]> row.

(** What an upload leaves in the component state. *)
Record Upload := { up_rows : list (gmap string string); up_err : string }.

Section Csv.
Context (host : Host).
Local Open Scope string_scope.

(** [l.trim().length > 0]. *)
Definition non_blank (l : string) : bool := negb (String.eqb (String_trim host l) "").

(** [headers.forEach((h, i) => (row[h] = (cells[i] ?? "").trim()))] on a
    fresh object. *)
Definition row_of (headers cells : list string) : gmap string string :=
  fold_left
    (fun row ih => set_field row (snd ih) (String_trim host (nth (fst ih) cells "")))
    (combine (seq 0 (length headers)) headers) ∅.

(** [parseCSV]; [None] is the [TypeError] raised by [raw[0].map] when no
    line is left. *)
Definition parseCSV (text : string) : option (list (gmap string string)) :=
  let lines := List.filter non_blank (split_lines text) in
  let raw := map split_commas lines in
  match raw with
  | [] => None
  | first :: data =>
      let headers := map (String_trim host) first in
      Some (map (row_of headers) data)
  end.

(** The [onload] handler of [handleFile], after [setErr("")]; the message
    of the engine's [TypeError] is a parameter. *)
Definition handleFile (typeError_message : string) (text : string) : Upload :=
  match parseCSV text with
  | None => {| up_rows := []; up_err := typeError_message |}
  | Some [] => {| up_rows := []; up_err := "No data rows found." |}
  | Some parsed => {| up_rows := parsed; up_err := "" |}
  end.

End Csv.

(** ** The earlier copy of the page (second document of [page.tsx], and
    [part_000]) *)

Module Legacy.

Record Row := { LVF : float; RVF : float; LI : float }.

Record PairedResult := { t : float; d : float; df : float }.
Record OneSampleResult := { os_t : float; os_df : float }.

(** What [parseCSV] throws. *)
Inductive Thrown := TypeError | Error (message : string).

Definition std (arr : list float) : float :=
  let m := mean arr in
  Math_sqrt (fold_left (fun a b => a + pow2 (b - m)) arr 0 / (Number_of_nat (length arr) - 1)).

Definition pairedTTest (a b : list float) : PairedResult :=
  let diffs := imap (fun i v => v - index b i) a in
  let mDiff := mean diffs in
  let sdDiff := std diffs in
  let t := mDiff / (sdDiff / Math_sqrt (Number_of_nat (length diffs))) in
  let d := mDiff / sdDiff in
  {| t := t; d := d; df := Number_of_nat (length diffs) - 1 |}.

Definition oneSampleT (arr : list float) (mu : float) : OneSampleResult :=
  let m := mean arr in
  let s := std arr in
  let t := (m - mu) / (s / Math_sqrt (Number_of_nat (length arr))) in
  {| os_t := t; os_df := Number_of_nat (length arr) - 1 |}.

(** [headers.indexOf(name)], [None] for [-1]. *)
Fixpoint indexOf (headers : list string) (name : string) : option nat :=
  match headers with
  | [] => None
  | h :: rest =>
      if String.eqb h name then Some O else option_map S (indexOf rest name)
  end.

Definition dquote : string := String "034" EmptyString.

(** The messages of the two errors [parseCSV] throws itself. *)
Definition missing_LVF_RVF : string :=
  ("CSV must include columns named " ++ dquote ++ "LVF" ++ dquote ++
   " and " ++ dquote ++ "RVF" ++ dquote ++ ".")%string.

Definition missing_LI : string :=
  ("CSV must include column named " ++ dquote ++ "Lateralization Index" ++ dquote ++ ".")%string.

Section Parse.
Context (host : Host).
Local Open Scope string_scope.

(** [Number(r[i])]: a missing cell is [undefined], whose number is NaN. *)
Definition number_at (r : list string) (i : nat) : float :=
  match nth_error r i with
  | Some s => Number_ofString host s
  | None => nan
  end.

Definition all_finite (row : Row) : bool :=
  Number_isFinite (LVF row) && Number_isFinite (RVF row) && Number_isFinite (LI row).

Definition parseCSV (text : string) : Thrown + list Row :=
  let lines := List.filter (fun l => negb (String.eqb l "")) (split_lines text) in
  let rows := map split_commas lines in
  match rows with
  | [] => inl TypeError
  | first :: data =>
      let headers := map (String_trim host) first in
      match indexOf headers "LVF", indexOf headers "RVF" with
      | Some lvfIndex, Some rvfIndex =>
          match indexOf headers "Lateralization Index" with
          | Some liIndex =>
              inr (List.filter all_finite
                     (map (fun r => {| LVF := number_at r lvfIndex;
                                       RVF := number_at r rvfIndex;
                                       LI := number_at r liIndex |}) data))
          | None => inl (Error missing_LI)
          end
      | _, _ => inl (Error missing_LVF_RVF)
      end
  end.

End Parse.

End Legacy.

(** ** Notions used to state the properties *)

(** [0 <= p <= 1]. *)
Definition in_unit_interval (p : float) : bool := (0 <=? p) && (p <=? 1).

Definition in_unit_or_nan (p : float) : bool := is_nan p || in_unit_interval p.

(** The differences [a[i] - b[i]] that [pairedTTest] summarizes. *)
Definition diffs (a b : list float) : list float := imap (fun i v => v - index b i) a.

(** The loop variables of [betacf] after [k] passes made without leaving
    the loop. *)
Fixpoint betacf_after (a b x : float) (k : nat) : Lentz :=
  match k with
  | O => betacf_init a b x
  | S k' => fst (betacf_body a b x k (betacf_after a b x k'))
  end.

(** The multiplier [del] computed by pass [k >= 1]. *)
Definition betacf_del (a b x : float) (k : nat) : float :=
  snd (betacf_body a b x k (betacf_after a b x (pred k))).

(** The Welch formulas, as the specification words them, over the standard
    deviations [sa], [sb], the sizes [na], [nb] and the means [ma], [mb]. *)
Definition welch_statistic (ma mb sa na sb nb : float) : float :=
  (ma - mb) / Math_sqrt (pow2 sa / na + pow2 sb / nb).

Definition welch_satterthwaite_df (sa na sb nb : float) : float :=
  pow2 (pow2 sa / na + pow2 sb / nb) /
  (pow2 (pow2 sa) / (pow2 na * (na - 1)) + pow2 (pow2 sb) / (pow2 nb * (nb - 1))).

Definition pooled_cohen_d (ma mb sa na sb nb : float) : float :=
  (ma - mb) / Math_sqrt (((na - 1) * pow2 sa + (nb - 1) * pow2 sb) / (na + nb - 2)).

Definition hedges_J (na nb : float) : float := 1 - 3 / (4 * (na + nb) - 9).

(** A zero of either sign. *)
Definition SFis_zero (x : spec_float) : Prop :=
  match x with S754_zero _ => True | _ => False end.

(** [y] is [x] negated, up to the sign of a zero. *)
Definition SFnegated (x y : spec_float) : Prop :=
  y = SFopp x \/ (SFis_zero x /\ SFis_zero y).

Definition negated (x y : float) : Prop := SFnegated (Prim2SF x) (Prim2SF y).

(** The number one half, in [SpecFloat] form. *)
Definition SFhalf : spec_float := S754_finite false 4503599627370496 (-53).

(** A host for running the statements on concrete inputs: its [Number]
    reads unsigned decimal integers, its other built-ins are trivial. *)
Definition test_Number (s : string) : float :=
  match NilZero.uint_of_string s with
  | Some u => Number_of_nat (Nat.of_uint u)
  | None => nan
  end.

Definition test_host : Host :=
  {| Math_log := fun _ => nan; Math_exp := fun _ => nan; Math_sin := fun _ => nan;
     Number_toString_shortest := fun _ => ""%string;
     Number_ofString := test_Number;
     String_trim := fun s => s;
     String_split_ws := fun s => [s];
     String_toUpperCase := fun s => s;
     String_toLowerCase := fun s => s;
     String_ofMember := fun name =>
       if String.eqb name "__proto__" then "[object Object]"%string
       else ("function " ++ name ++ "() { [native code] }")%string;
     trim_TypeError := fun _ => "(intermediate value).trim is not a function"%string |}.

(** The page state right after an upload, and the selection of two groups. *)
Definition initial_state (an : AnalysisType) (rs : list (gmap string string)) : PageState :=
  {| rows := rs; analysis := an;
     pairedA := "LVF"; pairedB := "RVF";
     oneVar := "Lateralization Index"; oneMu := "0";
     groupOutcome := "Lateralization Index"; groupVar := "Gender";
     groupA := ""; groupB := "";
     corrX := "Age"; corrY := "Lateralization Index" |}.

Definition select_groups (A B : string) (st : PageState) : PageState :=
  {| rows := rows st; analysis := analysis st;
     pairedA := pairedA st; pairedB := pairedB st;
     oneVar := oneVar st; oneMu := oneMu st;
     groupOutcome := groupOutcome st; groupVar := groupVar st;
     groupA := A; groupB := B;
     corrX := corrX st; corrY := corrY st |}.

(** [s] contains the character [c]. *)
Fixpoint has_char (c : ascii) (s : string) : bool :=
  match s with
  | EmptyString => false
  | String c' rest => Ascii.eqb c' c || has_char c rest
  end.

(** The messages of the errors that the guards of [output] throw. *)
Definition output_messages : list string :=
  [ "Not enough paired rows."; "Not enough numeric rows."; "μ0 must be a number.";
    "Select two different groups."; "Each group needs at least 2 observations.";
    "Not enough paired rows for correlation." ]%string.

Definition finite_number (v : float) : Prop := Number_isFinite v = true.

(** The lines [parseCSV] keeps, and its trimmed header cells. *)
Definition kept_lines (host : Host) (text : string) : list string :=
  List.filter (non_blank host) (split_lines text).

Definition headers_of (host : Host) (line : string) : list string :=
  map (String_trim host) (split_commas line).

Definition set_oneMu (mu : string) (st : PageState) : PageState :=
  {| rows := rows st; analysis := analysis st;
     pairedA := pairedA st; pairedB := pairedB st;
     oneVar := oneVar st; oneMu := mu;
     groupOutcome := groupOutcome st; groupVar := groupVar st;
     groupA := groupA st; groupB := groupB st;
     corrX := corrX st; corrY := corrY st |}.

(** Three rows of an upload. *)
Definition demo_rows : list (gmap string string) :=
  [ {[ "Gender" := "F"; "Lateralization Index" := "1" ]};
    {[ "Gender" := "M"; "Lateralization Index" := "2" ]};
    {[ "Gender" := "F"; "Lateralization Index" := "4" ]} ]%string.

(** The columns whose cells the selected analysis hands to [toNumberMaybe]. *)
Definition columns_read (st : PageState) : list string :=
  match analysis st with
  | paired => [pairedA st; pairedB st]
  | onesample => [oneVar st]
  | independent => [groupOutcome st]
  | correlation => [corrX st; corrY st]
  end.

(** The selection of the two paired columns. *)
Definition set_paired (aCol bCol : string) (st : PageState) : PageState :=
  {| rows := rows st; analysis := analysis st;
     pairedA := aCol; pairedB := bCol;
     oneVar := oneVar st; oneMu := oneMu st;
     groupOutcome := groupOutcome st; groupVar := groupVar st;
     groupA := groupA st; groupB := groupB st;
     corrX := corrX st; corrY := corrY st |}.

(** Three rows of an upload that leave every analysis short of values: a
    cell that is not a number, and two empty cells. *)
Definition short_rows : list (gmap string string) :=
  [ {[ "LVF" := "12"; "RVF" := "15"; "Age" := "20"; "Gender" := "F";
       "Lateralization Index" := "1" ]};
    {[ "LVF" := "x"; "RVF" := "11"; "Age" := "31"; "Gender" := "M";
       "Lateralization Index" := "2" ]};
    {[ "LVF" := "9"; "RVF" := "14"; "Age" := ""; "Gender" := "F";
       "Lateralization Index" := "" ]} ]%string.

(** The extraction of the rows [rs] threw [message] on the column [col]:
    the [TypeError] of a cell that a row inherits from [Object.prototype]. *)
Definition thrown_on (host : Host) (rs : list (gmap string string)) (col message : string)
  : Prop :=
  message = trim_TypeError host col /\ inherited col = true /\
  Exists (fun r => r !! col = None) rs.
(** ** Facts about binary64 arithmetic *)

Module FloatFacts.

Lemma SFcompare_refl (x : spec_float) :
  x <> S754_nan -> SFcompare x x = Some Eq.
Proof.
  destruct x as [s|s| |s m e]; simpl; try congruence; intros _.
  - destruct s; reflexivity.
  - destruct s; rewrite Z.compare_refl, Pos.compare_cont_refl; reflexivity.
Qed.

Lemma SFcompare_antisym (x y : spec_float) :
  SFcompare y x = option_map CompOpp (SFcompare x y).
Proof.
  destruct x as [sx|sx| |sx mx ex], y as [sy|sy| |sy my ey]; simpl;
    try reflexivity; try (destruct sx; reflexivity); try (destruct sy; reflexivity);
    try (destruct sx, sy; reflexivity).
  change (Pos.compare_cont Eq my mx) with (Pos.compare_cont (CompOpp Eq) my mx).
  rewrite <- (Pos.compare_cont_antisym mx my Eq).
  destruct sx, sy; simpl; try reflexivity;
    rewrite (Z.compare_antisym ex ey); destruct (ex ?= ey)%Z; simpl; try reflexivity;
    try rewrite CompOpp_involutive; reflexivity.
Qed.

Lemma is_nan_spec (x : float) :
  is_nan x = match Prim2SF x with S754_nan => true | _ => false end.
Proof.
  unfold is_nan. rewrite FloatAxioms.eqb_spec. unfold SFeqb.
  destruct (Prim2SF x) as [s|s| |s m e] eqn:E; try reflexivity;
    rewrite SFcompare_refl by discriminate; reflexivity.
Qed.

Lemma is_zero_spec (x : float) :
  is_zero x = match Prim2SF x with S754_zero _ => true | _ => false end.
Proof.
  unfold is_zero. rewrite FloatAxioms.eqb_spec.
  change (Prim2SF PrimFloat.zero) with (S754_zero false).
  destruct (Prim2SF x) as [s|s| |s m e]; try reflexivity; destruct s; reflexivity.
Qed.

Lemma is_neg_zero_spec (x : float) :
  is_neg_zero x = match Prim2SF x with S754_zero true => true | _ => false end.
Proof.
  unfold is_neg_zero, get_sign. rewrite is_zero_spec.
  destruct (Prim2SF x) as [s|s| |s m e] eqn:E; try reflexivity.
  rewrite FloatAxioms.ltb_spec, FloatAxioms.div_spec, E. destruct s; reflexivity.
Qed.

Lemma is_pos_zero_spec (x : float) :
  is_pos_zero x = match Prim2SF x with S754_zero false => true | _ => false end.
Proof.
  unfold is_pos_zero, get_sign. rewrite is_zero_spec.
  destruct (Prim2SF x) as [s|s| |s m e] eqn:E; try reflexivity.
  rewrite FloatAxioms.ltb_spec, FloatAxioms.div_spec, E. destruct s; reflexivity.
Qed.

Lemma nan_inv (x : float) : is_nan x = true -> x = nan.
Proof.
  rewrite is_nan_spec. intros H. apply Prim2SF_inj.
  destruct (Prim2SF x); try discriminate. reflexivity.
Qed.

Lemma ltb_leb (x y : float) : (x <? y) = true -> (x <=? y) = true.
Proof.
  rewrite FloatAxioms.ltb_spec, FloatAxioms.leb_spec. unfold SFltb, SFleb.
  destruct (SFcompare _ _) as [[]|]; congruence.
Qed.

Lemma SFcompare_total (x y : spec_float) :
  x <> S754_nan -> y <> S754_nan -> exists c, SFcompare x y = Some c.
Proof.
  destruct x, y; simpl; intros; try congruence; eauto.
Qed.

Lemma ltb_false_leb (x y : float) :
  is_nan x = false -> is_nan y = false -> (x <? y) = false -> (y <=? x) = true.
Proof.
  rewrite !is_nan_spec, FloatAxioms.ltb_spec, FloatAxioms.leb_spec. unfold SFltb, SFleb.
  intros Hx Hy.
  rewrite (SFcompare_antisym (Prim2SF x) (Prim2SF y)).
  destruct (SFcompare_total (Prim2SF x) (Prim2SF y)) as [c ->].
  - intros E; rewrite E in Hx; discriminate.
  - intros E; rewrite E in Hy; discriminate.
  - destruct c; simpl; congruence.
Qed.

Lemma leb_not_nan (x y : float) : (x <=? y) = true -> is_nan x = false /\ is_nan y = false.
Proof.
  rewrite FloatAxioms.leb_spec, !is_nan_spec. unfold SFleb.
  destruct (Prim2SF x), (Prim2SF y); simpl; auto; discriminate.
Qed.

Lemma ltb_not_nan (x y : float) : (x <? y) = true -> is_nan x = false /\ is_nan y = false.
Proof. intros H. apply leb_not_nan, ltb_leb, H. Qed.

Lemma leb_ltb_false (x y : float) : (x <=? y) = true -> (y <? x) = false.
Proof.
  rewrite FloatAxioms.leb_spec, FloatAxioms.ltb_spec. unfold SFleb, SFltb.
  rewrite (SFcompare_antisym (Prim2SF x) (Prim2SF y)).
  destruct (SFcompare _ _) as [[]|]; simpl; congruence.
Qed.


(** NaN is contagious in the four operations. *)
Lemma add_nan_r (x : float) : x + nan = nan.
Proof. apply Prim2SF_inj. rewrite add_spec. change (Prim2SF nan) with S754_nan. destruct (Prim2SF x); reflexivity. Qed.
Lemma add_nan_l (x : float) : nan + x = nan.
Proof. apply Prim2SF_inj. rewrite add_spec. reflexivity. Qed.
Lemma sub_nan_r (x : float) : x - nan = nan.
Proof. apply Prim2SF_inj. rewrite sub_spec. change (Prim2SF nan) with S754_nan. destruct (Prim2SF x); reflexivity. Qed.
Lemma sub_nan_l (x : float) : nan - x = nan.
Proof. apply Prim2SF_inj. rewrite sub_spec. reflexivity. Qed.
Lemma mul_nan_r (x : float) : x * nan = nan.
Proof. apply Prim2SF_inj. rewrite mul_spec. change (Prim2SF nan) with S754_nan. destruct (Prim2SF x); reflexivity. Qed.
Lemma mul_nan_l (x : float) : nan * x = nan.
Proof. apply Prim2SF_inj. rewrite mul_spec. reflexivity. Qed.
Lemma div_nan_r (x : float) : x / nan = nan.
Proof. apply Prim2SF_inj. rewrite FloatAxioms.div_spec. change (Prim2SF nan) with S754_nan. destruct (Prim2SF x); reflexivity. Qed.
Lemma div_nan_l (x : float) : nan / x = nan.
Proof. apply Prim2SF_inj. rewrite FloatAxioms.div_spec. reflexivity. Qed.
Lemma ltb_nan_l (x : float) : (nan <? x) = false.
Proof. rewrite FloatAxioms.ltb_spec. reflexivity. Qed.
Lemma ltb_nan_r (x : float) : (x <? nan) = false.
Proof. rewrite FloatAxioms.ltb_spec. change (Prim2SF nan) with S754_nan. unfold SFltb. destruct (Prim2SF x); reflexivity. Qed.

Lemma abs_opp (x : float) : abs (- x) = abs x.
Proof.
  apply Prim2SF_inj. rewrite !abs_spec, opp_spec. destruct (Prim2SF x); reflexivity.
Qed.

(** [Math.min(1, v)] and [Math.max(0, w)], the two halves of [clamp _ 0 1]. *)
Lemma Math_min_1 (v : float) :
  Math_min 1 v = if is_nan v then nan else if v <? 1 then v else 1.
Proof.
  unfold Math_min. change (is_nan 1) with false. change (is_pos_zero 1) with false.
  rewrite andb_false_r. reflexivity.
Qed.

Lemma Math_max_0 (w : float) :
  Math_max 0 w = if is_nan w then nan else if 0 <? w then w else 0.
Proof.
  unfold Math_max. change (is_nan 0) with false. change (is_neg_zero 0) with false.
  rewrite andb_false_r. reflexivity.
Qed.

(** The four ways [clamp v 0 1] comes out. *)
Lemma clamp_unit_cases (v : float) :
  (is_nan v = true /\ clamp v 0 1 = nan) \/
  ((v <=? 0) = true /\ clamp v 0 1 = 0) \/
  ((1 <=? v) = true /\ clamp v 0 1 = 1) \/
  ((0 <? v) = true /\ (v <? 1) = true /\ clamp v 0 1 = v).
Proof.
  unfold clamp. rewrite Math_min_1.
  destruct (is_nan v) eqn:Hn; [left; split; reflexivity|right].
  destruct (v <? 1) eqn:H1.
  - rewrite Math_max_0, Hn.
    destruct (0 <? v) eqn:H0; [right; right; auto|left].
    split; [|reflexivity]. apply ltb_false_leb; auto.
  - right; left. split; [|reflexivity]. apply ltb_false_leb; auto.
Qed.

Lemma clamp_unit_range (v : float) :
  if is_nan v then clamp v 0 1 = nan else in_unit_interval (clamp v 0 1) = true.
Proof.
  unfold in_unit_interval.
  destruct (clamp_unit_cases v) as [[Hn ->]|[[H ->]|[[H ->]|(H0 & H1 & ->)]]].
  - rewrite Hn; reflexivity.
  - destruct (leb_not_nan _ _ H) as [-> _]. reflexivity.
  - destruct (leb_not_nan _ _ H) as [_ ->]. reflexivity.
  - destruct (ltb_not_nan _ _ H0) as [_ ->].
    rewrite (ltb_leb _ _ H0), (ltb_leb _ _ H1). reflexivity.
Qed.

Lemma div_eucl_mul_l (a b : Z) : (0 < b)%Z -> Z.div_eucl (b * a) b = (a, 0%Z).
Proof.
  intros Hb.
  pose proof (Z.div_mul a b ltac:(lia)) as Hq.
  pose proof (Z.mod_mul a b ltac:(lia)) as Hr.
  rewrite (Z.mul_comm a b) in Hq, Hr.
  unfold Z.div, Z.modulo in Hq, Hr.
  destruct (Z.div_eucl (b * a) b) as [q r]. simpl in *. congruence.
Qed.

Lemma SFdiv_core_self (m : positive) (e : Z) :
  SFdiv_core_binary prec emax (Zpos m) e (Zpos m) e = (2 ^ 53, -53, loc_Exact)%Z.
Proof.
  unfold SFdiv_core_binary.
  rewrite !Z.sub_diag.
  change (Z.min (fexp prec emax 0) 0) with (-53)%Z.
  change (0 - -53)%Z with 53%Z. cbv iota beta zeta.
  rewrite Z.shiftl_mul_pow2 by lia.
  rewrite div_eucl_mul_l by lia.
  unfold new_location, new_location_even, new_location_odd.
  destruct (Z.even (Z.pos m)); reflexivity.
Qed.

Lemma SFdiv_self (s : bool) (m : positive) (e : Z) :
  SF64div (S754_finite s m e) (S754_finite s m e) = Prim2SF 1.
Proof.
  unfold SF64div, SFdiv. rewrite SFdiv_core_self, xorb_nilpotent. reflexivity.
Qed.


Lemma is_finite_spec (x : float) :
  is_finite x =
  match Prim2SF x with S754_zero _ | S754_finite _ _ _ => true | _ => false end.
Proof.
  unfold is_finite, is_infinity.
  rewrite is_nan_spec, FloatAxioms.eqb_spec, abs_spec.
  destruct (Prim2SF x) as [s|s| |s m e]; reflexivity.
Qed.

Lemma div_self (x : float) :
  is_finite x = true -> is_zero x = false -> x / x = 1.
Proof.
  rewrite is_finite_spec, is_zero_spec. intros Hf Hz.
  apply Prim2SF_inj. rewrite FloatAxioms.div_spec.
  destruct (Prim2SF x) as [s|s| |s m e]; try discriminate.
  apply SFdiv_self.
Qed.

Lemma add_zero_r (x : float) : is_zero x = false -> x + 0 = x.
Proof.
  rewrite is_zero_spec. intros Hz. apply Prim2SF_inj. rewrite add_spec.
  change (Prim2SF 0) with (S754_zero false).
  destruct (Prim2SF x) as [s|s| |s m e]; try discriminate; reflexivity.
Qed.

Lemma ltb_0_not_zero (x : float) : (0 <? x) = true -> is_zero x = false.
Proof.
  rewrite FloatAxioms.ltb_spec, is_zero_spec. change (Prim2SF 0) with (S754_zero false).
  destruct (Prim2SF x) as [s|s| |s m e]; try reflexivity. discriminate.
Qed.

Lemma eqb_0_abs (t : float) : (t =? 0) = true -> abs t = 0.
Proof.
  rewrite FloatAxioms.eqb_spec. change (Prim2SF 0) with (S754_zero false).
  intros H. apply Prim2SF_inj. rewrite abs_spec.
  destruct (Prim2SF t) as [s|s| |s m e]; try discriminate; try reflexivity;
    destruct s; discriminate.
Qed.

Lemma eqb_0_square (t : float) : (t =? 0) = true -> t * t = 0.
Proof.
  rewrite FloatAxioms.eqb_spec. change (Prim2SF 0) with (S754_zero false).
  intros H. apply Prim2SF_inj. rewrite mul_spec.
  destruct (Prim2SF t) as [s|s| |s m e]; try discriminate;
    destruct s; try discriminate; reflexivity.
Qed.

Lemma eqb_1_not_0 (x : float) : (x =? 1) = true -> (x =? 0) = false.
Proof.
  rewrite !FloatAxioms.eqb_spec.
  change (Prim2SF 0) with (S754_zero false).
  change (Prim2SF 1) with (S754_finite false 4503599627370496 (-52)).
  destruct (Prim2SF x) as [s|s| |s m e]; try discriminate; try reflexivity;
    destruct s; try discriminate; reflexivity.
Qed.

End FloatFacts.
Import FloatFacts.


(** ** Negating the operands of an operation *)

Module NegationFacts.

Lemma binary_round_aux_opp s m e l :
  binary_round_aux prec emax (negb s) m e l = SFopp (binary_round_aux prec emax s m e l).
Proof.
  unfold binary_round_aux.
  destruct (shr_fexp prec emax m e l) as [mrs' e'].
  destruct (shr_fexp prec emax _ e' loc_Exact) as [mrs'' e''].
  destruct (shr_m mrs''); try reflexivity.
  destruct (e'' <=? emax - prec)%Z; reflexivity.
Qed.

Lemma binary_round_opp s m e :
  binary_round prec emax (negb s) m e = SFopp (binary_round prec emax s m e).
Proof.
  unfold binary_round. destruct (shl_align m e _) as [mz ez]. apply binary_round_aux_opp.
Qed.

Lemma binary_normalize_opp (M e : Z) :
  SFnegated (binary_normalize prec emax M e false) (binary_normalize prec emax (- M) e false).
Proof.
  destruct M as [|p|p]; simpl.
  - right. split; exact I.
  - left. apply (binary_round_opp false).
  - left. apply (binary_round_opp true).
Qed.

Lemma cond_Zopp_negb s z : cond_Zopp (negb s) z = (- cond_Zopp s z)%Z.
Proof. destruct s; simpl; lia. Qed.

Lemma SFopp_involutive x : SFopp (SFopp x) = x.
Proof. destruct x; simpl; rewrite ?negb_involutive; reflexivity. Qed.

Lemma SFnegated_opp x : SFnegated x (SFopp x).
Proof. left; reflexivity. Qed.

Lemma SFadd_opp (x y : spec_float) :
  SFnegated (SF64add x y) (SF64add (SFopp x) (SFopp y)).
Proof.
  destruct x as [sx|sx| |sx mx ex], y as [sy|sy| |sy my ey];
    try (left; reflexivity);
    try (destruct sx, sy; ((left; reflexivity) || (right; split; exact I))).
  unfold SF64add, SFadd, SFopp.
  rewrite !cond_Zopp_negb, <- Z.opp_add_distr. apply binary_normalize_opp.
Qed.

Lemma SFadd_zero_l (z x : spec_float) :
  SFis_zero z -> (SFis_zero x /\ SFis_zero (SF64add z x)) \/ (~ SFis_zero x /\ SF64add z x = x).
Proof.
  destruct z as [sz| | |]; simpl; try tauto. intros _.
  destruct x as [s|s| |s m e]; simpl; auto.
  left. destruct sz, s; simpl; auto.
Qed.

Lemma SFadd_zero_r (z x : spec_float) :
  SFis_zero z -> (SFis_zero x /\ SFis_zero (SF64add x z)) \/ (~ SFis_zero x /\ SF64add x z = x).
Proof.
  destruct z as [sz| | |]; simpl; try tauto. intros _.
  destruct x as [s|s| |s m e]; simpl; auto.
  left. destruct sz, s; simpl; auto.
Qed.

Lemma SFis_zero_opp x : SFis_zero (SFopp x) <-> SFis_zero x.
Proof. destruct x; simpl; tauto. Qed.

Lemma SFadd_negated (x x' y y' : spec_float) :
  SFnegated x x' -> SFnegated y y' -> SFnegated (SF64add x y) (SF64add x' y').
Proof.
  intros [->|[Zx Zx']] [->|[Zy Zy']].
  - apply SFadd_opp.
  - destruct (SFadd_zero_r y x Zy) as [[Z1 Z2]|[N1 E1]],
             (SFadd_zero_r y' (SFopp x) Zy') as [[Z3 Z4]|[N2 E2]].
    + right; auto.
    + pose proof (SFis_zero_opp x); pose proof (SFis_zero_opp y); tauto.
    + pose proof (SFis_zero_opp x); pose proof (SFis_zero_opp y); tauto.
    + rewrite E1, E2. left; reflexivity.
  - destruct (SFadd_zero_l x y Zx) as [[Z1 Z2]|[N1 E1]],
             (SFadd_zero_l x' (SFopp y) Zx') as [[Z3 Z4]|[N2 E2]].
    + right; auto.
    + pose proof (SFis_zero_opp x); pose proof (SFis_zero_opp y); tauto.
    + pose proof (SFis_zero_opp x); pose proof (SFis_zero_opp y); tauto.
    + rewrite E1, E2. left; reflexivity.
  - right. destruct x, x', y, y'; simpl in *; try tauto.
    all: repeat match goal with s : bool |- _ => destruct s end; simpl; auto.
Qed.

Lemma SFsub_add_opp (x y : spec_float) : SF64sub x y = SF64add x (SFopp y).
Proof.
  destruct x as [sx|sx| |sx mx ex], y as [sy|sy| |sy my ey]; try reflexivity;
    destruct sx, sy; reflexivity.
Qed.

Lemma SFnegated_opp_compat x y : SFnegated x y -> SFnegated (SFopp x) (SFopp y).
Proof.
  intros [->|[Zx Zy]]; [left; reflexivity|right].
  split; apply SFis_zero_opp; assumption.
Qed.

Lemma SFsub_negated (x x' y y' : spec_float) :
  SFnegated x x' -> SFnegated y y' -> SFnegated (SF64sub x y) (SF64sub x' y').
Proof.
  intros Hx Hy. rewrite !SFsub_add_opp.
  apply SFadd_negated; [assumption|apply SFnegated_opp_compat; assumption].
Qed.

Lemma SFadd_comm (x y : spec_float) : SF64add x y = SF64add y x.
Proof.
  destruct x as [sx|sx| |sx mx ex], y as [sy|sy| |sy my ey]; try reflexivity;
    try (destruct sx, sy; reflexivity).
  unfold SF64add, SFadd. rewrite (Z.min_comm ey ex), Z.add_comm. reflexivity.
Qed.

Lemma SFadd_comm_negated (x y : spec_float) :
  SFnegated (SF64sub x y) (SF64sub y x).
Proof.
  rewrite !SFsub_add_opp, (SFadd_comm y (SFopp x)).
  rewrite <- (SFopp_involutive y) at 2. apply SFadd_opp.
Qed.

Lemma SFmul_negated_square (x x' : spec_float) :
  SFnegated x x' -> SF64mul x x = SF64mul x' x'.
Proof.
  intros [->|[Zx Zx']].
  - destruct x as [s|s| |s m e]; simpl; try reflexivity; destruct s; reflexivity.
  - destruct x as [s| | |], x' as [s'| | |]; simpl in *; try tauto.
    destruct s, s'; reflexivity.
Qed.

Lemma SFdiv_negated (x x' d : spec_float) :
  SFnegated x x' -> SFnegated (SF64div x d) (SF64div x' d).
Proof.
  intros [->|[Zx Zx']].
  - left.
    destruct x as [sx|sx| |sx mx ex], d as [sd|sd| |sd md ed]; try reflexivity;
      try (destruct sx, sd; reflexivity).
    change (SFopp (S754_finite sx mx ex)) with (S754_finite (negb sx) mx ex).
    unfold SF64div, SFdiv.
    destruct (SFdiv_core_binary prec emax (Z.pos mx) ex (Z.pos md) ed) as [[mz ez] lz].
    rewrite <- binary_round_aux_opp. f_equal. destruct sx, sd; reflexivity.
  - destruct x as [s| | |], x' as [s'| | |]; simpl in *; try tauto.
    destruct d as [sd|sd| |sd md ed]; simpl.
    + left; reflexivity.
    + right; split; exact I.
    + left; reflexivity.
    + right; split; exact I.
Qed.

(** The same facts on primitive floats. *)
Lemma negated_sub_swap (x y : float) : negated (x - y) (y - x).
Proof. unfold negated. rewrite !sub_spec. apply SFadd_comm_negated. Qed.

Lemma negated_add (x x' y y' : float) :
  negated x x' -> negated y y' -> negated (x + y) (x' + y').
Proof. unfold negated. rewrite !add_spec. apply SFadd_negated. Qed.

Lemma negated_sub (x x' y y' : float) :
  negated x x' -> negated y y' -> negated (x - y) (x' - y').
Proof. unfold negated. rewrite !sub_spec. apply SFsub_negated. Qed.

Lemma negated_div (x x' d : float) : negated x x' -> negated (x / d) (x' / d).
Proof. unfold negated. rewrite !FloatAxioms.div_spec. apply SFdiv_negated. Qed.

Lemma negated_pow2 (x x' : float) : negated x x' -> pow2 x = pow2 x'.
Proof.
  unfold negated, pow2. intros H. apply Prim2SF_inj. rewrite !mul_spec.
  apply SFmul_negated_square, H.
Qed.

Lemma negated_zero : negated 0 0.
Proof. right. split; exact I. Qed.

Lemma negated_abs (x x' : float) : negated x x' -> abs x = abs x'.
Proof.
  unfold negated. intros H. apply Prim2SF_inj. rewrite !abs_spec.
  destruct H as [->|[Zx Zx']].
  - destruct (Prim2SF x); reflexivity.
  - destruct (Prim2SF x), (Prim2SF x'); simpl in *; tauto.
Qed.

Lemma negated_SameValueZero (x y : float) :
  negated x y -> SameValueZero y (- x) = true.
Proof.
  unfold negated, SameValueZero. intros [H|[Zx Zy]].
  - assert (E : y = - x) by (apply Prim2SF_inj; rewrite opp_spec; exact H).
    rewrite <- E. unfold is_nan. destruct (y =? y); reflexivity.
  - rewrite FloatAxioms.eqb_spec, opp_spec.
    destruct (Prim2SF x), (Prim2SF y); simpl in *; tauto.
Qed.

End NegationFacts.
Import NegationFacts.

(** ** Rounding to binary64, and the reflection of [logGamma] *)

Module RoundingFacts.
Local Open Scope Z_scope.

Lemma digits2_pos_size (p : positive) : digits2_pos p = Pos.size p.
Proof. induction p; simpl; congruence. Qed.

Lemma digits2_bounds (p : positive) :
  2 ^ (Zpos (digits2_pos p) - 1) <= Zpos p < 2 ^ Zpos (digits2_pos p).
Proof.
  rewrite digits2_pos_size.
  pose proof (Pos.size_gt p) as Hgt. pose proof (Pos.size_le p) as Hle.
  apply Pos2Z.pos_lt_pos in Hgt. apply Pos2Z.pos_le_pos in Hle.
  rewrite Pos2Z.inj_pow in Hgt, Hle. change (Zpos p~0) with (2 * Zpos p) in Hle.
  split; [|exact Hgt].
  replace (Zpos (Pos.size p)) with (Z.succ (Zpos (Pos.size p) - 1)) in Hle by lia.
  rewrite Z.pow_succ_r in Hle by lia. lia.
Qed.

Lemma digits2_lower (p : positive) (k : Z) :
  0 <= k -> 2 ^ k <= Zpos p -> k + 1 <= Zpos (digits2_pos p).
Proof.
  intros Hk H. pose proof (digits2_bounds p) as [_ Hu].
  assert (2 ^ k < 2 ^ Zpos (digits2_pos p)) by lia.
  apply Z.pow_lt_mono_r_iff in H0; lia.
Qed.

Lemma digits2_upper (p : positive) (k : Z) :
  0 <= k -> Zpos p < 2 ^ k -> Zpos (digits2_pos p) <= k.
Proof.
  intros Hk H. pose proof (digits2_bounds p) as [Hl _].
  assert (2 ^ (Zpos (digits2_pos p) - 1) < 2 ^ k) by lia.
  apply Z.pow_lt_mono_r_iff in H0; lia.
Qed.

Lemma shr_1_m (r : shr_record) :
  0 <= shr_m r -> shr_m (shr_1 r) = shr_m r / 2.
Proof.
  destruct r as [m rb sb]. cbn [shr_m shr_1]. intros Hm.
  destruct m as [|[p|p|]|p]; cbn [shr_m]; try reflexivity; try lia.
  - apply Z.div_unique with 1; lia.
  - apply Z.div_unique with 0; lia.
Qed.

Lemma iter_shr_1_m (n : positive) (r : shr_record) :
  0 <= shr_m r -> shr_m (SpecFloat.iter_pos shr_1 n r) = shr_m r / 2 ^ Zpos n.
Proof.
  revert r. induction n as [n IH|n IH|]; intros r Hr; simpl SpecFloat.iter_pos.
  - assert (H1 : 0 <= shr_m (shr_1 r)) by (rewrite shr_1_m by lia; apply Z.div_pos; lia).
    assert (H2 : 0 <= shr_m (SpecFloat.iter_pos shr_1 n (shr_1 r)))
      by (rewrite IH by lia; apply Z.div_pos; lia).
    rewrite IH, IH, shr_1_m by lia.
    rewrite !Z.div_div by lia. f_equal.
    rewrite Pos2Z.inj_xI. replace (2 * Zpos n + 1) with (1 + Zpos n + Zpos n) by lia.
    rewrite !Z.pow_add_r by lia. lia.
  - assert (H2 : 0 <= shr_m (SpecFloat.iter_pos shr_1 n r))
      by (rewrite IH by lia; apply Z.div_pos; lia).
    rewrite IH, IH by lia.
    rewrite !Z.div_div by lia. f_equal.
    change (Zpos n~0) with (2 * Zpos n). replace (2 * Zpos n) with (Zpos n + Zpos n) by lia.
    rewrite !Z.pow_add_r by lia. lia.
  - rewrite shr_1_m by lia. reflexivity.
Qed.

Lemma shr_spec (r : shr_record) (e n : Z) :
  0 <= shr_m r -> 0 <= n ->
  shr_m (fst (shr r e n)) = shr_m r / 2 ^ n /\ snd (shr r e n) = e + n.
Proof.
  intros Hr Hn. unfold shr. destruct n as [|p|p]; simpl; try lia.
  - rewrite Z.div_1_r. lia.
  - split; [|reflexivity]. apply (iter_shr_1_m p r Hr).
Qed.

Lemma shr_record_of_loc_m (m : Z) (l : location) : shr_m (shr_record_of_loc m l) = m.
Proof. destruct l as [|[]]; reflexivity. Qed.

Lemma round_nearest_even_bounds (m : Z) (l : location) :
  m <= round_nearest_even m l <= m + 1.
Proof.
  unfold round_nearest_even. destruct l as [|[]]; try destruct (Z.even m); lia.
Qed.


Lemma fexp_normal (k : Z) : -1021 <= k -> fexp prec emax k = k - 53.
Proof. intros H. unfold fexp, SpecFloat.emin, prec, emax. lia. Qed.

Lemma shr_fexp_normal (m : positive) (e : Z) (l : location) :
  53 <= Zpos (digits2_pos m) -> -1021 <= Zpos (digits2_pos m) + e ->
  shr_m (fst (shr_fexp prec emax (Zpos m) e l)) = Zpos m / 2 ^ (Zpos (digits2_pos m) - 53) /\
  snd (shr_fexp prec emax (Zpos m) e l) = e + (Zpos (digits2_pos m) - 53).
Proof.
  intros Hd Hk. unfold shr_fexp. cbn [Zdigits2].
  rewrite fexp_normal by lia.
  replace (Zpos (digits2_pos m) + e - 53 - e) with (Zpos (digits2_pos m) - 53) by lia.
  pose proof (shr_spec (shr_record_of_loc (Zpos m) l) e (Zpos (digits2_pos m) - 53)) as H.
  rewrite shr_record_of_loc_m in H. apply H; lia.
Qed.

(** A mantissa of [d >= 53] digits shifted right by [d - 53] keeps 53 digits. *)
Lemma shifted_mantissa_bounds (m : positive) :
  53 <= Zpos (digits2_pos m) ->
  4503599627370496 <= Zpos m / 2 ^ (Zpos (digits2_pos m) - 53) < 9007199254740992.
Proof.
  intros Hd. pose proof (digits2_bounds m) as [Hl Hu].
  set (n := Zpos (digits2_pos m) - 53) in *.
  assert (Hn : 0 <= n) by lia.
  assert (Hp : 0 < 2 ^ n) by (apply Z.pow_pos_nonneg; lia).
  replace (Zpos (digits2_pos m) - 1) with (52 + n) in Hl by lia.
  replace (Zpos (digits2_pos m)) with (53 + n) in Hu by lia.
  rewrite Z.pow_add_r in Hl, Hu by lia.
  change (2 ^ 52) with 4503599627370496 in Hl. change (2 ^ 53) with 9007199254740992 in Hu.
  split.
  - apply Z.div_le_lower_bound; lia.
  - apply Z.div_lt_upper_bound; lia.
Qed.

Lemma binary_round_aux_ge_half (m : positive) (e : Z) (l : location) :
  53 <= Zpos (digits2_pos m) -> 0 <= Zpos (digits2_pos m) + e ->
  SFltb (binary_round_aux prec emax false (Zpos m) e l) SFhalf = false.
Proof.
  intros Hd Hk. unfold binary_round_aux.
  pose proof (shr_fexp_normal m e l Hd ltac:(lia)) as [Hm1 He1].
  pose proof (shifted_mantissa_bounds m Hd) as Hb1.
  destruct (shr_fexp prec emax (Zpos m) e l) as [r1 e1]. cbn [fst snd] in Hm1, He1.
  rewrite <- Hm1 in Hb1.
  pose proof (round_nearest_even_bounds (shr_m r1) (loc_of_shr_record r1)) as Hb2.
  destruct (round_nearest_even (shr_m r1) (loc_of_shr_record r1)) as [|q|q] eqn:Hq; try lia.
  assert (Hd2 : 53 <= Zpos (digits2_pos q) <= 54).
  { split.
    - apply (digits2_lower q 52); [lia|]. change (2 ^ 52) with 4503599627370496. lia.
    - apply (digits2_upper q 54); [lia|]. change (2 ^ 54) with 18014398509481984. lia. }
  pose proof (shr_fexp_normal q e1 loc_Exact ltac:(lia) ltac:(lia)) as [Hm3 He3].
  destruct (shr_fexp prec emax (Zpos q) e1 loc_Exact) as [r3 e3]. cbn [fst snd] in Hm3, He3.
  assert (Hcases : (shr_m r3 = Zpos q /\ e3 = e1) \/ (0 < shr_m r3 /\ e1 < e3)).
  { destruct (Z.eq_dec (Zpos (digits2_pos q)) 53) as [E|E].
    - left. rewrite E in Hm3, He3. change (2 ^ (53 - 53)) with 1 in Hm3.
      rewrite Z.div_1_r in Hm3. lia.
    - right. replace (Zpos (digits2_pos q)) with 54 in Hm3, He3 by lia.
      change (2 ^ (54 - 53)) with 2 in Hm3. split; [|lia].
      rewrite Hm3. apply Z.div_str_pos. lia. }
  destruct (shr_m r3) as [|m3|m3] eqn:Hr3; try reflexivity; [lia|].
  destruct (e3 <=? emax - prec); [|reflexivity].
  unfold SFltb, SFhalf, SFcompare.
  destruct (e3 ?= -53) eqn:Hc; try reflexivity.
  - apply Z.compare_eq in Hc.
    destruct Hcases as [[Eq3 Ee]|[_ Hlt]]; [|lia].
    assert (Hge : 4503599627370496 <= Zpos m3) by (clear - Eq3 Hb2 Hb1; lia).
    destruct (Pos.compare_cont Eq m3 4503599627370496) eqn:Hp; try reflexivity.
    pose proof (proj1 (Pos.compare_lt_iff m3 4503599627370496) Hp) as Hlt.
    apply Pos2Z.pos_lt_pos in Hlt. clear - Hge Hlt. lia.
  - change (e3 < -53) in Hc. clear - Hc He3 He1 Hk Hd2. lia.
Qed.


Lemma iter_xO_value (m p : positive) : Zpos (Pos.iter xO m p) = Zpos m * 2 ^ Zpos p.
Proof.
  induction p as [|p IH] using Pos.peano_ind.
  - simpl. lia.
  - rewrite Pos.iter_succ, Pos2Z.inj_succ, Z.pow_succ_r by lia.
    change (Zpos (Pos.iter xO m p)~0) with (2 * Zpos (Pos.iter xO m p)). rewrite IH. lia.
Qed.

Lemma iter_xO_digits (m p : positive) :
  Zpos (digits2_pos (Pos.iter xO m p)) = Zpos (digits2_pos m) + Zpos p.
Proof.
  induction p as [|p IH] using Pos.peano_ind.
  - simpl. lia.
  - rewrite Pos.iter_succ. cbn [digits2_pos]. rewrite !Pos2Z.inj_succ, IH. lia.
Qed.

Lemma shl_align_value (m : positive) (e e' : Z) :
  e' <= e -> Zpos (fst (shl_align m e e')) = Zpos m * 2 ^ (e - e').
Proof.
  intros H. unfold shl_align. destruct (e' - e) as [|p|p] eqn:E; cbn [fst]; try lia.
  - replace (e - e') with 0 by lia. lia.
  - rewrite iter_xO_value. f_equal. f_equal. lia.
Qed.

Lemma binary_round_ge_half (M : positive) (ez : Z) :
  ez <= -52 -> 2 ^ (- ez - 1) <= Zpos M ->
  SFltb (binary_round prec emax false M ez) SFhalf = false.
Proof.
  intros He HM. unfold binary_round.
  pose proof (digits2_lower M (- ez - 1) ltac:(lia) HM) as Hd.
  rewrite fexp_normal by lia.
  unfold shl_align.
  destruct (Zpos (digits2_pos M) + ez - 53 - ez) as [|p|p] eqn:E.
  - apply binary_round_aux_ge_half; lia.
  - apply binary_round_aux_ge_half; lia.
  - apply binary_round_aux_ge_half; rewrite iter_xO_digits; lia.
Qed.

Lemma SFsub_one_ge_half (z : spec_float) :
  valid_binary z = true -> SFltb z SFhalf = true ->
  SFltb (SF64sub (Prim2SF 1) z) SFhalf = false.
Proof.
  change (Prim2SF 1) with (S754_finite false 4503599627370496 (-52)).
  destruct z as [s|s| |s m e]; try discriminate.
  - intros _ _. reflexivity.
  - destruct s; [reflexivity|discriminate].
  - intros Hv Hlt.
    unfold SF64sub, SFsub.
    set (ez := Z.min (-52) e).
    assert (Hez : ez <= -52) by (unfold ez; lia).
    pose proof (shl_align_value 4503599627370496 (-52) ez ltac:(lia)) as HA.
    pose proof (shl_align_value m e ez ltac:(unfold ez; lia)) as HB.
    set (A := Zpos (fst (shl_align 4503599627370496 (-52) ez))) in *.
    set (B := Zpos (fst (shl_align m e ez))) in *.
    assert (HA' : A = 2 ^ (- ez)).
    { rewrite HA. change 4503599627370496 with (2 ^ 52).
      rewrite <- Z.pow_add_r by lia. f_equal. lia. }
    assert (Hpow : 2 ^ (- ez) = 2 * 2 ^ (- ez - 1)).
    { rewrite <- Z.pow_succ_r by lia. f_equal. lia. }
    assert (Hpos : 0 < 2 ^ (- ez - 1)) by (apply Z.pow_pos_nonneg; lia).
    assert (HBpos : 0 < B) by (unfold B; lia).
    assert (Harg : 2 ^ (- ez - 1) <= cond_Zopp false A - cond_Zopp s B).
    { destruct s; cbn [cond_Zopp]; [lia|].
      (* a positive z below one half *)
      unfold valid_binary, bounded, canonical_mantissa in Hv.
      apply andb_prop in Hv. destruct Hv as [Hc _]. apply Z.eqb_eq in Hc.
      unfold fexp, SpecFloat.emin in Hc. unfold prec, emax in Hc.
      pose proof (digits2_bounds m) as [Hml Hmu].
      unfold SFltb, SFhalf, SFcompare in Hlt.
      assert (He : e <= -54).
      { destruct (e ?= -53) eqn:Hcmp; try discriminate.
        - apply Z.compare_eq in Hcmp. exfalso.
          assert (Hd : Zpos (digits2_pos m) = 53) by lia.
          rewrite Hd in Hml. change (2 ^ (53 - 1)) with 4503599627370496 in Hml.
          destruct (Pos.compare_cont Eq m 4503599627370496) eqn:Hp; try discriminate.
          pose proof (proj1 (Pos.compare_lt_iff m 4503599627370496) Hp) as Hlt'.
          apply Pos2Z.pos_lt_pos in Hlt'. clear - Hml Hlt'. lia.
        - change (e < -53) in Hcmp. lia. }
      assert (Hez' : ez = e) by (unfold ez; lia).
      assert (HB' : B = Zpos m).
      { rewrite HB, Hez'. replace (e - e) with 0 by lia. lia. }
      assert (Hm : Zpos m < 2 ^ (- ez - 1)).
      { apply Z.lt_le_trans with (2 ^ Zpos (digits2_pos m)); [exact Hmu|].
        apply Z.pow_le_mono_r; lia. }
      lia. }
    destruct (cond_Zopp false A - cond_Zopp s B) as [|M|M] eqn:EM; try lia.
    cbn [binary_normalize]. apply binary_round_ge_half; assumption.
Qed.

End RoundingFacts.
Import RoundingFacts.

Lemma reflected_argument (z : float) : (z <? 0.5) = true -> (1 - z <? 0.5) = false.
Proof.
  rewrite !FloatAxioms.ltb_spec, sub_spec.
  change (Prim2SF 0.5) with SFhalf.
  apply SFsub_one_ge_half, Prim2SF_valid.
Qed.

Lemma logGamma_rec_depth (host : Host) (depth : nat) (z : float) :
  logGamma_rec host (S depth) z = logGamma host z.
Proof.
  unfold logGamma. cbn [logGamma_rec].
  destruct (z <? 0.5) eqn:Hz; [|reflexivity].
  f_equal. destruct depth; cbn [logGamma_rec]; rewrite (reflected_argument z Hz); reflexivity.
Qed.

(** ** The special functions at their boundaries *)

Section SpecialFunctionFacts.
Context (host : Host).

Lemma regIncompleteBeta_at_0 (a b x : float) :
  (clamp x 0 1 =? 0) = true -> regIncompleteBeta host a b x = 0.
Proof. unfold regIncompleteBeta. intros ->. reflexivity. Qed.

Lemma regIncompleteBeta_at_1 (a b x : float) :
  (clamp x 0 1 =? 1) = true -> regIncompleteBeta host a b x = 1.
Proof.
  unfold regIncompleteBeta. intros H. rewrite (eqb_1_not_0 _ H), H. reflexivity.
Qed.

Lemma clamp_below (x : float) : (x <=? 0) = true -> clamp x 0 1 = 0.
Proof.
  intros H. destruct (leb_not_nan _ _ H) as [Hn _].
  destruct (clamp_unit_cases x) as [[Hn' _]|[[_ E]|[[H1 _]|(H0 & _)]]]; auto.
  - congruence.
  - exfalso. generalize H H1. rewrite !FloatAxioms.leb_spec.
    change (Prim2SF 0) with (S754_zero false).
    change (Prim2SF 1) with (S754_finite false 4503599627370496 (-52)).
    destruct (Prim2SF x) as [s|s| |s m e]; try discriminate; destruct s; discriminate.
  - rewrite (leb_ltb_false _ _ H) in H0. discriminate.
Qed.

Lemma clamp_above (x : float) : (1 <=? x) = true -> clamp x 0 1 = 1.
Proof.
  intros H. destruct (leb_not_nan _ _ H) as [_ Hn].
  destruct (clamp_unit_cases x) as [[Hn' _]|[[H0 _]|[[_ E]|(_ & H1 & _)]]]; auto.
  - congruence.
  - exfalso. generalize H H0. rewrite !FloatAxioms.leb_spec.
    change (Prim2SF 0) with (S754_zero false).
    change (Prim2SF 1) with (S754_finite false 4503599627370496 (-52)).
    destruct (Prim2SF x) as [s|s| |s m e]; try discriminate; destruct s; discriminate.
  - rewrite (leb_ltb_false _ _ H) in H1. discriminate.
Qed.

(** C7: [regIncompleteBeta a b x] clamps [x] to [[0,1]]; whatever [a] and
    [b] are, it returns exactly [0] when the clamped value is [0] and exactly
    [1] when it is [1]; every [x <= 0] clamps to [0] and every [x >= 1]
    clamps to [1], infinities included. *)
Theorem regIncompleteBeta_boundary (a b x : float) :
  ((clamp x 0 1 =? 0) = true -> regIncompleteBeta host a b x = 0) /\
  ((clamp x 0 1 =? 1) = true -> regIncompleteBeta host a b x = 1) /\
  ((x <=? 0) = true -> clamp x 0 1 = 0 /\ regIncompleteBeta host a b x = 0) /\
  ((1 <=? x) = true -> clamp x 0 1 = 1 /\ regIncompleteBeta host a b x = 1).
Proof.
  split; [apply regIncompleteBeta_at_0|].
  split; [apply regIncompleteBeta_at_1|].
  split; intros H.
  - pose proof (clamp_below x H) as Hc.
    split; [exact Hc|]. apply regIncompleteBeta_at_0. rewrite Hc. reflexivity.
  - pose proof (clamp_above x H) as Hc.
    split; [exact Hc|]. apply regIncompleteBeta_at_1. rewrite Hc. reflexivity.
Qed.

(** C5: the two-sided p-value does not depend on the sign of the statistic:
    [pTwoSidedFromT t df = pTwoSidedFromT (-t) df] for every [t] and [df]. *)
Theorem pTwoSidedFromT_symmetric (t df : float) :
  pTwoSidedFromT host t df = pTwoSidedFromT host (- t) df.
Proof. unfold pTwoSidedFromT, Math_abs. rewrite abs_opp. reflexivity. Qed.

(** For a zero statistic and [df = +Infinity] the argument of the
    incomplete beta function is [Infinity / Infinity]. *)
Lemma infinite_df_argument : infinity / (infinity + 0 * 0) = nan.
Proof. reflexivity. Qed.

Lemma positive_not_finite (df : float) :
  (0 <? df) = true -> is_finite df = false -> df = infinity.
Proof.
  rewrite FloatAxioms.ltb_spec, is_finite_spec. change (Prim2SF 0) with (S754_zero false).
  intros Hpos Hinf. apply Prim2SF_inj. change (Prim2SF infinity) with (S754_infinity false).
  destruct (Prim2SF df) as [s|s| |s m e]; try discriminate.
  destruct s; [discriminate|reflexivity].
Qed.

End SpecialFunctionFacts.

Lemma regIncompleteBeta_boundary_witness :
  (clamp (-3) 0 1 = 0 /\ regIncompleteBeta test_host 2 0.5 (-3) = 0) /\
  (clamp infinity 0 1 = 1 /\ regIncompleteBeta test_host 2 0.5 infinity = 1).
Proof.
  split.
  - apply (regIncompleteBeta_boundary test_host 2 0.5 (-3)). reflexivity.
  - apply (regIncompleteBeta_boundary test_host 2 0.5 infinity). reflexivity.
Defined.

(** ** The continued fraction *)

Section Loop.
Context (a b x : float).

Lemma betacf_for_spec (len j : nat) :
  let '(st, k) := betacf_for a b x (seq (S j) len) (betacf_after a b x j) j in
  (j <= k <= j + len)%nat /\
  st = betacf_after a b x k /\
  (forall i, (j < i < k)%nat -> converged (betacf_del a b x i) = false) /\
  ((k < j + len)%nat -> converged (betacf_del a b x k) = true) /\
  ((0 < len)%nat -> (j < k)%nat).
Proof.
  revert j. induction len as [|len IH]; intros j.
  - simpl. repeat split; try lia.
  - cbn [seq betacf_for].
    destruct (betacf_body a b x (S j) (betacf_after a b x j)) as [st' del] eqn:Hbody.
    assert (Hst : st' = betacf_after a b x (S j)).
    { cbn [betacf_after]. rewrite Hbody. reflexivity. }
    assert (Hdel : del = betacf_del a b x (S j)).
    { unfold betacf_del. cbn [pred]. rewrite Hbody. reflexivity. }
    destruct (converged del) eqn:Hc.
    + repeat split; try lia; auto. congruence.
    + specialize (IH (S j)). rewrite <- Hst in IH.
      destruct (betacf_for a b x (seq (S (S j)) len) st' (S j)) as [st k].
      destruct IH as (Hk & Hs & Hbefore & Hat & Hpos).
      repeat split; try lia; auto.
      * intros i Hi. destruct (Nat.eq_dec i (S j)) as [->|Hne].
        -- congruence.
        -- apply Hbefore. lia.
      * intros Hlt. apply Hat. lia.
Qed.

(** C9: [betacf a b x] makes between 1 and 200 passes through its loop on
    every input: it leaves at the first pass whose multiplier [del] is
    within [EPS = 3e-12] of 1, and after pass 200 otherwise; the value
    returned is [h] as it stands after the last pass made. *)
Theorem betacf_at_most_MAX_ITER_passes :
  let k := betacf_passes a b x in
  (1 <= k <= 200)%nat /\
  betacf a b x = cf_h (betacf_after a b x k) /\
  (forall i, (1 <= i < k)%nat -> converged (betacf_del a b x i) = false) /\
  ((k < 200)%nat -> converged (betacf_del a b x k) = true).
Proof.
  unfold betacf_passes, betacf, betacf_run.
  pose proof (betacf_for_spec MAX_ITER 0) as H. cbn [betacf_after] in H.
  destruct (betacf_for a b x (seq 1 MAX_ITER) (betacf_init a b x) 0) as [st k].
  destruct H as (Hk & Hs & Hbefore & Hat & Hpos). cbn [fst snd].
  change MAX_ITER with 200%nat in *.
  repeat split; try lia.
  - rewrite Hs. reflexivity.
  - intros i Hi. apply Hbefore. lia.
  - intros Hlt. apply Hat. lia.
Qed.

End Loop.

Example betacf_stops_early : betacf_passes 2 0.5 0.1 = 4%nat.
Proof. vm_compute. reflexivity. Qed.

(** ** NaN through the p-value *)

Ltac nan_simpl :=
  repeat first
    [ rewrite mul_nan_r | rewrite mul_nan_l | rewrite div_nan_r | rewrite div_nan_l
    | rewrite add_nan_r | rewrite add_nan_l | rewrite sub_nan_r | rewrite sub_nan_l
    | progress change (floor_FPMIN nan) with nan
    | progress change (Math_abs nan) with nan
    | progress change (- nan) with nan ].

Lemma betacf_body_nan (a b : float) (m : nat) (st : Lentz) :
  betacf_body a b nan m st = ({| cf_c := nan; cf_d := nan; cf_h := nan |}, nan).
Proof. unfold betacf_body. cbv zeta. nan_simpl. reflexivity. Qed.

Lemma betacf_for_nan (a b : float) (ms : list nat) (st : Lentz) (passes : nat) :
  ms <> [] ->
  betacf_for a b nan ms st passes =
  ({| cf_c := nan; cf_d := nan; cf_h := nan |}, (passes + length ms)%nat).
Proof.
  revert st passes. induction ms as [|m ms IH]; intros st passes Hne; [congruence|].
  cbn [betacf_for]. rewrite betacf_body_nan. change (converged nan) with false. cbv iota.
  destruct ms as [|m' ms].
  - simpl. f_equal. lia.
  - rewrite IH by discriminate. f_equal. simpl. lia.
Qed.

Lemma betacf_nan (a b : float) : betacf a b nan = nan.
Proof.
  unfold betacf, betacf_run. rewrite betacf_for_nan by discriminate. reflexivity.
Qed.

Lemma betacf_passes_nan (a b : float) : betacf_passes a b nan = 200%nat.
Proof.
  unfold betacf_passes, betacf_run. rewrite betacf_for_nan by discriminate. reflexivity.
Qed.

Section NaN.
Context (host : Host).

Lemma regIncompleteBeta_nan (a b : float) : regIncompleteBeta host a b nan = nan.
Proof.
  unfold regIncompleteBeta. change (clamp nan 0 1) with nan. cbv zeta.
  change (nan =? 0) with false. change (nan =? 1) with false. cbv iota.
  rewrite ltb_nan_l. change (1 - nan) with nan. rewrite betacf_nan. nan_simpl. reflexivity.
Qed.

Lemma studentTCdf_nan (t df : float) : df / (df + t * t) = nan -> studentTCdf host t df = nan.
Proof.
  intros H. unfold studentTCdf. cbv zeta. rewrite H, regIncompleteBeta_nan.
  change (0.5 * nan) with nan. change (1 - nan) with nan.
  destruct (0 <=? t); reflexivity.
Qed.

Lemma pTwoSidedFromT_nan (df : float) : pTwoSidedFromT host nan df = nan.
Proof.
  unfold pTwoSidedFromT. cbv zeta. rewrite studentTCdf_nan.
  - reflexivity.
  - change (Math_abs nan) with nan. nan_simpl. reflexivity.
Qed.

Lemma pTwoSidedFromT_range (t df : float) : in_unit_or_nan (pTwoSidedFromT host t df) = true.
Proof.
  unfold pTwoSidedFromT, in_unit_or_nan. cbv zeta.
  pose proof (clamp_unit_range (2 * (1 - studentTCdf host (Math_abs t) df))) as H.
  destruct (is_nan (2 * (1 - studentTCdf host (Math_abs t) df))).
  - rewrite H. reflexivity.
  - rewrite H. apply orb_true_r.
Qed.

(** C3, amended: the two-sided p-value carried by the result of each of the
    four test procedures lies in [[0,1]] or is NaN; it is NaN whenever the
    statistic handed to [pTwoSidedFromT] is NaN. *)
Theorem p_value_in_unit_interval_or_nan :
  (forall a b, in_unit_or_nan (pr_p (pairedTTest host a b)) = true) /\
  (forall arr mu, in_unit_or_nan (os_p (oneSampleT host arr mu)) = true) /\
  (forall a b, in_unit_or_nan (w_p (welchTTest host a b)) = true) /\
  (forall x y, in_unit_or_nan (pc_p (pearsonCorrelation host x y)) = true) /\
  (forall df, pTwoSidedFromT host nan df = nan).
Proof.
  repeat split; intros.
  - apply pTwoSidedFromT_range.
  - apply pTwoSidedFromT_range.
  - apply pTwoSidedFromT_range.
  - unfold pearsonCorrelation. cbv zeta.
    destruct (pearson_sums _ _ _ _) as [[num dx] dy]. apply pTwoSidedFromT_range.
  - apply pTwoSidedFromT_nan.
Qed.

Lemma oneSampleT_constant_p_nan : os_p (oneSampleT host [5; 5; 5] 5) = nan.
Proof.
  unfold oneSampleT. cbv zeta. cbn [os_p].
  replace ((s_mean (summarize [5; 5; 5]) - 5) /
           (s_sd (summarize [5; 5; 5]) / Math_sqrt (s_n (summarize [5; 5; 5])))) with nan
    by (vm_compute; reflexivity).
  apply pTwoSidedFromT_nan.
Qed.

End NaN.

(** C3 as stated fails: the one-sample test of [5, 5, 5] against [mu = 5]
    has [t = 0 / 0 = NaN], and its p-value is NaN, which is not in [[0,1]]. *)
Lemma p_value_counterexample :
  ~ (forall (host : Host) (arr : list float) (mu : float),
        in_unit_interval (os_p (oneSampleT host arr mu)) = true).
Proof.
  intros H. specialize (H test_host [5; 5; 5] 5).
  rewrite oneSampleT_constant_p_nan in H. discriminate.
Qed.

(** ** A zero statistic *)

Lemma pTwoSidedFromT_infinite_df (host : Host) : pTwoSidedFromT host 0 infinity = nan.
Proof.
  unfold pTwoSidedFromT. change (Math_abs 0) with 0. cbv zeta.
  rewrite studentTCdf_nan by exact infinite_df_argument. reflexivity.
Qed.

(** The Welch test reaches [t = 0] with [df = +Infinity]: on two equal
    groups of tiny spread the numerator of [df] rounds to the smallest
    positive number and the denominator underflows to [0]. *)
Lemma welchTTest_infinite_df (host : Host) :
  let res := welchTTest host [0; 2.1e-81] [0; 2.1e-81] in
  w_t res = 0 /\ w_df res = infinity /\ w_p res = nan.
Proof.
  cbv zeta. split; [reflexivity|]. split; [reflexivity|].
  apply pTwoSidedFromT_infinite_df.
Qed.

(** The claim C4 as worded, for every [df > 0], fails at [df = +Infinity]. *)
Lemma pTwoSidedFromT_zero_statistic_counterexample :
  ~ (forall (host : Host) (df : float),
        (0 <? df) = true -> pTwoSidedFromT host 0 df = 1).
Proof.
  intros H. specialize (H test_host infinity eq_refl).
  rewrite pTwoSidedFromT_infinite_df in H.
  apply (f_equal is_nan) in H. discriminate H.
Qed.

Section ZeroStatistic.
Context (host : Host).

(** C4, amended: for [t = 0] and a finite [df > 0], the argument
    [df / (df + t * t)] is exactly [1], the regularized incomplete beta
    returns exactly [1], the Student-t CDF is [0.5] and the two-sided
    p-value is exactly [1]; the only other [df > 0] is [+Infinity], where
    the p-value is NaN. *)
Theorem pTwoSidedFromT_zero_statistic (df : float) :
  (0 <? df) = true ->
  (is_finite df = true ->
   df / (df + 0 * 0) = 1 /\
   regIncompleteBeta host (df / 2) 0.5 (df / (df + 0 * 0)) = 1 /\
   studentTCdf host 0 df = 0.5 /\
   pTwoSidedFromT host 0 df = 1) /\
  (is_finite df = false ->
   df = infinity /\ pTwoSidedFromT host 0 df = nan).
Proof.
  intros Hpos. split.
  - intros Hf.
    pose proof (ltb_0_not_zero _ Hpos) as Hz.
    assert (Hx : df / (df + 0 * 0) = 1).
    { change (0 * 0) with 0. rewrite add_zero_r by exact Hz. apply div_self; assumption. }
    assert (Hib : regIncompleteBeta host (df / 2) 0.5 (df / (df + 0 * 0)) = 1).
    { apply regIncompleteBeta_at_1. rewrite Hx. reflexivity. }
    assert (Hcdf : studentTCdf host 0 df = 0.5).
    { unfold studentTCdf. cbv zeta. rewrite Hib. reflexivity. }
    repeat split; try assumption.
    unfold pTwoSidedFromT. change (Math_abs 0) with 0. cbv zeta. rewrite Hcdf. reflexivity.
  - intros Hinf. pose proof (positive_not_finite df Hpos Hinf) as ->.
    split; [reflexivity|apply pTwoSidedFromT_infinite_df].
Qed.

End ZeroStatistic.

Lemma pTwoSidedFromT_zero_statistic_witness :
  (7 / (7 + 0 * 0) = 1 /\
   regIncompleteBeta test_host (7 / 2) 0.5 (7 / (7 + 0 * 0)) = 1 /\
   studentTCdf test_host 0 7 = 0.5 /\
   pTwoSidedFromT test_host 0 7 = 1) /\
  pTwoSidedFromT test_host 0 infinity = nan.
Proof.
  split.
  - apply (pTwoSidedFromT_zero_statistic test_host 7); reflexivity.
  - apply (pTwoSidedFromT_zero_statistic test_host infinity); reflexivity.
Defined.

(** ** Swapping the two samples of the paired test *)

Lemma diffs_cons (x y : float) (a b : list float) :
  diffs (x :: a) (y :: b) = (x - y) :: diffs a b.
Proof. reflexivity. Qed.

Lemma diffs_swap (a b : list float) :
  length a = length b -> Forall2 negated (diffs a b) (diffs b a).
Proof.
  revert b. induction a as [|x a IH]; intros [|y b] Hlen; try discriminate.
  - constructor.
  - rewrite !diffs_cons. constructor.
    + apply negated_sub_swap.
    + apply IH. simpl in Hlen. congruence.
Qed.

Lemma sum_negated (l l' : list float) (acc acc' : float) :
  Forall2 negated l l' -> negated acc acc' ->
  negated (fold_left (fun a b => a + b) l acc) (fold_left (fun a b => a + b) l' acc').
Proof.
  intros H. revert acc acc'. induction H as [|v v' l l' Hv _ IH]; intros acc acc' Hacc.
  - exact Hacc.
  - simpl. apply IH. apply negated_add; assumption.
Qed.

Lemma mean_negated (l l' : list float) :
  Forall2 negated l l' -> negated (mean l) (mean l').
Proof.
  intros H. unfold mean. rewrite <- (Forall2_length _ _ _ H).
  apply negated_div, sum_negated; [assumption|apply negated_zero].
Qed.

Lemma squares_negated (l l' : list float) (m m' acc : float) :
  Forall2 negated l l' -> negated m m' ->
  fold_left (fun acc v => acc + pow2 (v - m)) l acc =
  fold_left (fun acc v => acc + pow2 (v - m')) l' acc.
Proof.
  intros H Hm. revert acc. induction H as [|v v' l l' Hv _ IH]; intros acc.
  - reflexivity.
  - simpl. rewrite (negated_pow2 (v - m) (v' - m')) by (apply negated_sub; assumption).
    apply IH.
Qed.

Lemma varianceSample_negated (l l' : list float) :
  Forall2 negated l l' -> varianceSample l = varianceSample l'.
Proof.
  intros H. unfold varianceSample. rewrite <- (Forall2_length _ _ _ H).
  rewrite (squares_negated l l' (mean l) (mean l') 0 H (mean_negated _ _ H)).
  reflexivity.
Qed.

Section Paired.
Context (host : Host).

Lemma pairedTTest_swap (a b : list float) :
  length a = length b ->
  negated (pr_t (pairedTTest host a b)) (pr_t (pairedTTest host b a)) /\
  negated (pr_d (pairedTTest host a b)) (pr_d (pairedTTest host b a)) /\
  pr_df (pairedTTest host b a) = pr_df (pairedTTest host a b) /\
  pr_p (pairedTTest host b a) = pr_p (pairedTTest host a b).
Proof.
  intros Hlen. pose proof (diffs_swap a b Hlen) as HD.
  pose proof (mean_negated _ _ HD) as Hm.
  pose proof (varianceSample_negated _ _ HD) as Hv.
  pose proof (Forall2_length _ _ _ HD) as Hn.
  unfold pairedTTest, summarize, sd. fold (diffs a b) (diffs b a). cbn [s_mean s_sd s_n pr_t pr_d pr_df pr_p].
  rewrite <- Hv, <- Hn.
  assert (Ht : negated (mean (diffs a b) / (Math_sqrt (varianceSample (diffs a b)) / Math_sqrt (Number_of_nat (length (diffs a b)))))
                       (mean (diffs b a) / (Math_sqrt (varianceSample (diffs a b)) / Math_sqrt (Number_of_nat (length (diffs a b)))))).
  { apply negated_div, Hm. }
  repeat split.
  - exact Ht.
  - apply negated_div, Hm.
  - unfold pTwoSidedFromT, Math_abs. rewrite (negated_abs _ _ Ht). reflexivity.
Qed.

Lemma is_nan_opp (x : float) : is_nan (- x) = is_nan x.
Proof. rewrite !is_nan_spec, opp_spec. destruct (Prim2SF x); reflexivity. Qed.

Lemma SameValueZero_number (x y : float) :
  SameValueZero x y = true -> is_nan y = false -> (x =? y) = true.
Proof.
  unfold SameValueZero. intros H Hy. rewrite Hy, andb_false_r, orb_false_r in H. exact H.
Qed.

(** C10: for vectors [a], [b] of equal length, [pairedTTest b a] has the
    statistic and the effect size of [pairedTTest a b] negated and the same
    degrees of freedom.  Equality of numbers is [SameValueZero]: wherever
    the statistic (or effect size) of [pairedTTest a b] is a number, as it is
    for [n >= 2] and a non-zero standard deviation of the differences, it is
    the IEEE equality [=?]. *)
Theorem pairedTTest_antisymmetric (a b : list float) :
  length a = length b ->
  let ab := pairedTTest host a b in
  let ba := pairedTTest host b a in
  SameValueZero (pr_t ba) (- pr_t ab) = true /\
  SameValueZero (pr_d ba) (- pr_d ab) = true /\
  pr_df ba = pr_df ab /\
  (is_nan (pr_t ab) = false -> (pr_t ba =? - pr_t ab) = true) /\
  (is_nan (pr_d ab) = false -> (pr_d ba =? - pr_d ab) = true).
Proof.
  intros Hlen ab ba. destruct (pairedTTest_swap a b Hlen) as (Ht & Hd & Hdf & _).
  apply negated_SameValueZero in Ht, Hd. fold ab ba in Ht, Hd, Hdf.
  repeat split; auto.
  - intros Hn. apply SameValueZero_number; [exact Ht|]. rewrite is_nan_opp. exact Hn.
  - intros Hn. apply SameValueZero_number; [exact Hd|]. rewrite is_nan_opp. exact Hn.
Qed.

End Paired.

Lemma pairedTTest_antisymmetric_witness :
  let ab := pairedTTest test_host [1; 2; 4] [3; 1; 1] in
  let ba := pairedTTest test_host [3; 1; 1] [1; 2; 4] in
  SameValueZero (pr_t ba) (- pr_t ab) = true /\
  SameValueZero (pr_d ba) (- pr_d ab) = true /\
  pr_df ba = pr_df ab /\
  (is_nan (pr_t ab) = false -> (pr_t ba =? - pr_t ab) = true) /\
  (is_nan (pr_d ab) = false -> (pr_d ba =? - pr_d ab) = true).
Proof. apply (pairedTTest_antisymmetric test_host [1; 2; 4] [3; 1; 1]). reflexivity. Defined.

(** ** Formulas, formatting and the guards of [output] *)

Section Reporting.
Context (host : Host).

(** C6: for all vectors [a], [b] (in particular those of length at least
    2), [welchTTest] returns the Welch-Satterthwaite degrees of freedom, the
    statistic [(mean a - mean b) / sqrt (sa^2/na + sb^2/nb)] and, as [g],
    the pooled Cohen's d multiplied by [J = 1 - 3 / (4 (na + nb) - 9)]; the
    formulas are evaluated in binary64 on [sa = sd a] and [sb = sd b], with
    [sa^4] computed as the square of [sa^2]. *)
Theorem welchTTest_formulas (a b : list float) :
  let na := Number_of_nat (length a) in
  let nb := Number_of_nat (length b) in
  let r := welchTTest host a b in
  w_df r = welch_satterthwaite_df (sd a) na (sd b) nb /\
  w_t r = welch_statistic (mean a) (mean b) (sd a) na (sd b) nb /\
  w_g r = pooled_cohen_d (mean a) (mean b) (sd a) na (sd b) nb * hedges_J na nb.
Proof. repeat split. Qed.

(** C8: [fmtP] renders a non-finite [p] as "NA", a finite [p < 0.001] as
    "< .001", and any other [p] as [p.toFixed(3)] with one leading "0"
    removed; 0.0009 gives "< .001", 0.042 gives ".042", 0.5 gives ".500". *)
Theorem fmtP_cases (p : float) :
  (if Number_isFinite p then
     if p <? 0.001 then fmtP host p = "< .001"%string
     else fmtP host p = strip_leading_0 (Number_toFixed host p 3)
   else fmtP host p = "NA"%string) /\
  fmtP host 0.0009 = "< .001"%string /\
  fmtP host 0.042 = ".042"%string /\
  fmtP host 0.5 = ".500"%string /\
  fmtP host nan = "NA"%string /\
  fmtP host infinity = "NA"%string /\
  fmtP host neg_infinity = "NA"%string.
Proof.
  split.
  - unfold fmtP. destruct (Number_isFinite p); simpl; [|reflexivity].
    destruct (p <? 0.001); reflexivity.
  - repeat split; vm_compute; reflexivity.
Qed.

(** C1, as the code behaves: the sentence of the paired analysis prints a
    non-finite statistic and effect size through [toFixed(2)], which yields
    "-Infinity" (and "NaN", "Infinity"), while [fmt], used for the means and
    standard deviations, yields "NA".  Here every difference is [-1]. *)
Theorem paired_apa_prints_non_finite_statistic :
  (exists barData,
     analyse_paired host (engine host) "LVF" "RVF" [1; 2; 3; 4; 5] [2; 3; 4; 5; 6] =
     inr (Out_paired barData
       "A paired-samples t-test compared LVF (M = 3.00, SD = 1.58) and RVF (M = 4.00, SD = 1.58). The analysis yielded t(4) = -Infinity, p = < .001, d = -Infinity.")) /\
  Number_toFixed host nan 2 = "NaN"%string /\
  Number_toFixed host infinity 2 = "Infinity"%string /\
  fmt host nan = "NA"%string /\ fmt host infinity = "NA"%string.
Proof.
  split; [eexists; vm_compute; reflexivity|].
  repeat split; vm_compute; reflexivity.
Qed.

(** C2: once rows are loaded and the cells of the selected columns have
    been read, an analysis whose extracted input is below its minimum size
    (paired and one-sample: fewer than 3 values; Welch, with two groups
    selected: fewer than 2 in either group; correlation: fewer than 4
    pairs) yields the insufficient-data error, whatever the test procedures
    [E] would compute: the result does not depend on them. *)
Theorem insufficient_data_short_circuits (E : Procedures) (st : PageState) :
  rows st <> [] ->
  (analysis st = paired ->
   forall a b, getPaired host (rows st) (pairedA st) (pairedB st) = inr (a, b) ->
   (length a < 3)%nat ->
   output_with host E st = Some (Out_error "Not enough paired rows.")) /\
  (analysis st = onesample ->
   forall vec, getVector host (rows st) (oneVar st) = inr vec ->
   (length vec < 3)%nat ->
   output_with host E st = Some (Out_error "Not enough numeric rows.")) /\
  (analysis st = independent ->
   groups_unselected st = false ->
   forall a b,
   getGrouped host (rows st) (groupOutcome st) (groupVar st) (groupA st) (groupB st)
   = inr (a, b) ->
   (length a < 2 \/ length b < 2)%nat ->
   output_with host E st = Some (Out_error "Each group needs at least 2 observations.")) /\
  (analysis st = correlation ->
   forall pts, getPoints host (rows st) (corrX st) (corrY st) = inr pts ->
   (length pts < 4)%nat ->
   output_with host E st = Some (Out_error "Not enough paired rows for correlation.")).
Proof.
  intros Hrows. unfold output_with, output_try.
  destruct (rows st) as [|r rs] eqn:Hr; [congruence|]. clear Hrows.
  repeat split.
  - intros -> a b -> Hlen. cbn [bind].
    unfold analyse_paired. apply Nat.ltb_lt in Hlen. rewrite Hlen. reflexivity.
  - intros -> vec -> Hlen. cbn [bind]. unfold analyse_onesample.
    apply Nat.ltb_lt in Hlen. rewrite Hlen. reflexivity.
  - intros -> -> a b -> Hlen. cbn [bind]. unfold analyse_independent.
    assert (Hb : ((length a <? 2)%nat || (length b <? 2)%nat) = true).
    { apply orb_true_iff. rewrite !Nat.ltb_lt. exact Hlen. }
    rewrite Hb. reflexivity.
  - intros -> pts -> Hlen. cbn [bind]. unfold analyse_correlation.
    apply Nat.ltb_lt in Hlen. rewrite Hlen. reflexivity.
Qed.

End Reporting.

Lemma insufficient_data_witness :
  output_with test_host (engine test_host) (initial_state paired short_rows) =
    Some (Out_error "Not enough paired rows.") /\
  output_with test_host (engine test_host) (initial_state onesample short_rows) =
    Some (Out_error "Not enough numeric rows.") /\
  output_with test_host (engine test_host)
              (select_groups "F" "M" (initial_state independent short_rows)) =
    Some (Out_error "Each group needs at least 2 observations.") /\
  output_with test_host (engine test_host) (initial_state correlation short_rows) =
    Some (Out_error "Not enough paired rows for correlation.").
Proof.
  assert (Hrows : forall an, rows (initial_state an short_rows) <> []) by discriminate.
  split; [|split; [|split]].
  - apply (proj1 (insufficient_data_short_circuits test_host (engine test_host)
                    (initial_state paired short_rows) (Hrows paired))
                 eq_refl [12; 9] [15; 14]);
      [vm_compute; reflexivity|simpl; lia].
  - apply (proj1 (proj2 (insufficient_data_short_circuits test_host (engine test_host)
                           (initial_state onesample short_rows) (Hrows onesample)))
                 eq_refl [1; 2]);
      [vm_compute; reflexivity|simpl; lia].
  - apply (proj1 (proj2 (proj2 (insufficient_data_short_circuits test_host (engine test_host)
                                  (select_groups "F" "M" (initial_state independent short_rows))
                                  (Hrows independent))))
                 eq_refl eq_refl [1] [2]);
      [vm_compute; reflexivity|simpl; lia].
  - apply (proj2 (proj2 (proj2 (insufficient_data_short_circuits test_host (engine test_host)
                                  (initial_state correlation short_rows) (Hrows correlation))))
                 eq_refl [(20, 1); (31, 2)]);
      [vm_compute; reflexivity|simpl; lia].
Defined.

(** ** Further facts about binary64 arithmetic *)


Lemma sub_zero_r (x : float) : x - 0 = x.
Proof.
  apply Prim2SF_inj. rewrite sub_spec. change (Prim2SF 0) with (S754_zero false).
  destruct (Prim2SF x) as [s|s| |s m e]; try reflexivity. destruct s; reflexivity.
Qed.

Lemma SFmul_comm (x y : spec_float) : SF64mul x y = SF64mul y x.
Proof.
  destruct x as [sx|sx| |sx mx ex], y as [sy|sy| |sy my ey]; simpl;
    try reflexivity; try (rewrite xorb_comm; reflexivity).
  rewrite (xorb_comm sx sy), (Pos.mul_comm mx my), (Z.add_comm ex ey). reflexivity.
Qed.

Lemma mul_comm (x y : float) : x * y = y * x.
Proof. apply Prim2SF_inj. rewrite !mul_spec. apply SFmul_comm. Qed.

Lemma add_comm (x y : float) : x + y = y + x.
Proof. apply Prim2SF_inj. rewrite !add_spec. apply SFadd_comm. Qed.

Lemma SFmul_negated (x x' j : spec_float) :
  SFnegated x x' -> SFnegated (SF64mul x j) (SF64mul x' j).
Proof.
  intros [->|[Zx Zx']].
  - left.
    destruct x as [sx|sx| |sx mx ex], j as [sj|sj| |sj mj ej]; try reflexivity;
      try (destruct sx, sj; reflexivity).
    change (SFopp (S754_finite sx mx ex)) with (S754_finite (negb sx) mx ex).
    unfold SF64mul, SFmul.
    rewrite <- binary_round_aux_opp. f_equal. destruct sx, sj; reflexivity.
  - destruct x as [s| | |], x' as [s'| | |]; simpl in *; try tauto.
    destruct j as [sj|sj| |sj mj ej]; simpl.
    + right; split; exact I.
    + left; reflexivity.
    + left; reflexivity.
    + right; split; exact I.
Qed.

Lemma negated_mul (x x' j : float) : negated x x' -> negated (x * j) (x' * j).
Proof. unfold negated. rewrite !mul_spec. apply SFmul_negated. Qed.

Lemma leb_refl (x : float) : is_nan x = false -> (x <=? x) = true.
Proof.
  rewrite is_nan_spec, FloatAxioms.leb_spec. unfold SFleb. intros H.
  rewrite SFcompare_refl; [reflexivity|]. intros E. rewrite E in H. discriminate.
Qed.

Lemma leb_zeros (x y : float) : is_zero x = true -> is_zero y = true -> (x <=? y) = true.
Proof.
  rewrite !is_zero_spec, FloatAxioms.leb_spec.
  destruct (Prim2SF x), (Prim2SF y); try discriminate. reflexivity.
Qed.

Lemma add_infinity_r (x : float) : is_finite x = true -> x + infinity = infinity.
Proof.
  rewrite is_finite_spec. intros H. apply Prim2SF_inj. rewrite add_spec.
  change (Prim2SF infinity) with (S754_infinity false).
  destruct (Prim2SF x); try discriminate; reflexivity.
Qed.

Lemma div_infinity_r (x : float) : is_finite x = true -> is_zero (x / infinity) = true.
Proof.
  rewrite is_finite_spec, is_zero_spec, FloatAxioms.div_spec.
  change (Prim2SF infinity) with (S754_infinity false).
  destruct (Prim2SF x); try discriminate; reflexivity.
Qed.

Lemma zero_leb_0 (x : float) : is_zero x = true -> (x <=? 0) = true.
Proof. intros H. apply leb_zeros; [exact H|reflexivity]. Qed.

Lemma div_zero_not_finite (x : float) : is_finite (x / 0) = false.
Proof.
  rewrite is_finite_spec, FloatAxioms.div_spec. change (Prim2SF 0) with (S754_zero false).
  destruct (Prim2SF x); reflexivity.
Qed.

Lemma sqrt_not_finite (x : float) : is_finite x = false -> is_finite (sqrt x) = false.
Proof.
  rewrite !is_finite_spec, sqrt_spec.
  destruct (Prim2SF x) as [s|s| |s m e]; try discriminate; try reflexivity.
  destruct s; reflexivity.
Qed.

Lemma div_one_not_finite (x : float) : is_finite x = false -> is_finite (x / 1) = false.
Proof.
  rewrite !is_finite_spec, FloatAxioms.div_spec.
  change (Prim2SF 1) with (S754_finite false 4503599627370496 (-52)).
  destruct (Prim2SF x) as [s|s| |s m e]; try discriminate; reflexivity.
Qed.

Lemma floor_FPMIN_bound (v : float) : (Math_abs (floor_FPMIN v) <? FPMIN) = false.
Proof.
  unfold floor_FPMIN. destruct (Math_abs v <? FPMIN) eqn:H; [reflexivity|exact H].
Qed.

Lemma abs_below_FPMIN_of_zero (v : float) : is_zero v = true -> (Math_abs v <? FPMIN) = true.
Proof.
  unfold Math_abs. rewrite is_zero_spec, FloatAxioms.ltb_spec, abs_spec.
  destruct (Prim2SF v); try discriminate. reflexivity.
Qed.

Lemma floor_FPMIN_nonzero (v : float) : is_zero (floor_FPMIN v) = false.
Proof.
  destruct (is_zero (floor_FPMIN v)) eqn:H; [|reflexivity].
  apply abs_below_FPMIN_of_zero in H. rewrite floor_FPMIN_bound in H. discriminate.
Qed.

(** ** More on the statistics engine *)

Lemma clamp_nan (lo hi : float) : clamp nan lo hi = nan.
Proof.
  unfold clamp, Math_min. change (is_nan nan) with true. rewrite orb_true_r.
  unfold Math_max. change (is_nan nan) with true. rewrite orb_true_r. reflexivity.
Qed.

(** X1: for bounds [lo <= hi], [clamp x lo hi] is NaN when [x] is NaN and
    otherwise lies between [lo] and [hi]. *)
Theorem clamp_within_bounds (x lo hi : float) :
  (lo <=? hi) = true ->
  if is_nan x then clamp x lo hi = nan
  else (lo <=? clamp x lo hi) && (clamp x lo hi <=? hi) = true.
Proof.
  intros Hle. destruct (leb_not_nan _ _ Hle) as [Hlo Hhi].
  destruct (is_nan x) eqn:Hx.
  { rewrite (nan_inv x Hx). apply clamp_nan. }
  unfold clamp.
  assert (Hw : is_nan (Math_min hi x) = false /\ (Math_min hi x <=? hi) = true).
  { unfold Math_min. rewrite Hhi, Hx. cbn [orb].
    destruct (x <? hi) eqn:H1; [split; [exact Hx|apply ltb_leb, H1]|].
    destruct (is_neg_zero x && is_pos_zero hi) eqn:H2.
    - split; [exact Hx|]. apply andb_prop in H2. destruct H2 as [Ha Hb].
      unfold is_neg_zero in Ha. unfold is_pos_zero in Hb.
      apply andb_prop in Ha, Hb. apply leb_zeros; tauto.
    - split; [exact Hhi|apply leb_refl, Hhi]. }
  destruct Hw as [Hwn Hwle]. set (w := Math_min hi x) in *.
  unfold Math_max. rewrite Hlo, Hwn. cbn [orb].
  destruct (lo <? w) eqn:H1.
  - rewrite (ltb_leb _ _ H1), Hwle. reflexivity.
  - destruct (is_pos_zero w && is_neg_zero lo) eqn:H2.
    + rewrite Hwle, andb_true_r. apply andb_prop in H2. destruct H2 as [Ha Hb].
      unfold is_pos_zero in Ha. unfold is_neg_zero in Hb.
      apply andb_prop in Ha, Hb. apply leb_zeros; tauto.
    + rewrite (leb_refl lo Hlo), Hle. reflexivity.
Qed.

Lemma clamp_within_bounds_witness :
  (-2 <=? clamp 7 (-2) 3) && (clamp 7 (-2) 3 <=? 3) = true.
Proof. apply (clamp_within_bounds 7 (-2) 3). reflexivity. Defined.

(** X2: [logGamma] reflects at most once: for [z < 0.5] the reflected
    argument [1 - z] is never below [0.5] in binary64, so the nested call
    takes the Lanczos branch, and a larger allowance of nested calls gives
    the same value. *)
Theorem logGamma_reflects_once (host : Host) (z : float) :
  ((z <? 0.5) = true -> (1 - z <? 0.5) = false) /\
  (forall depth, logGamma_rec host (S depth) z = logGamma host z) /\
  logGamma host z =
  if z <? 0.5
  then Math_log host Math_PI - Math_log host (Math_sin host (Math_PI * z))
       - logGamma_lanczos host (1 - z)
  else logGamma_lanczos host z.
Proof.
  split; [apply reflected_argument|]. split; [intros; apply logGamma_rec_depth|].
  unfold logGamma. cbn [logGamma_rec].
  destruct (z <? 0.5) eqn:Hz; [|reflexivity].
  rewrite (reflected_argument z Hz). reflexivity.
Qed.

(** X3: the floor at [FPMIN] keeps the Lentz divisors away from zero: [c]
    is non-zero after any number of passes, and a floored value is never
    zero nor of magnitude below [FPMIN]. *)
Theorem lentz_divisors_never_zero (a b x : float) (k : nat) :
  is_zero (cf_c (betacf_after a b x k)) = false /\
  (forall v, is_zero (floor_FPMIN v) = false /\ (Math_abs (floor_FPMIN v) <? FPMIN) = false).
Proof.
  split.
  - destruct k as [|k]; [reflexivity|].
    cbn [betacf_after]. unfold betacf_body. cbn [fst cf_c]. apply floor_FPMIN_nonzero.
  - intros v. split; [apply floor_FPMIN_nonzero|apply floor_FPMIN_bound].
Qed.

Section EngineExtras.
Context (host : Host).

(** X4: for [x = NaN] and all [a], [b], [betacf] never converges: it makes
    all 200 passes and returns NaN, and [regIncompleteBeta] returns NaN. *)
Theorem nan_argument_exhausts_betacf (a b : float) :
  betacf_passes a b nan = 200%nat /\
  betacf a b nan = nan /\
  regIncompleteBeta host a b nan = nan.
Proof.
  split; [apply betacf_passes_nan|]. split; [apply betacf_nan|apply regIncompleteBeta_nan].
Qed.

Lemma regIncompleteBeta_zero_x (a b x : float) :
  is_zero x = true -> regIncompleteBeta host a b x = 0.
Proof.
  intros H. apply regIncompleteBeta_at_0. rewrite (clamp_below x (zero_leb_0 x H)). reflexivity.
Qed.

(** X5: for a finite [df], an infinite statistic has CDF exactly 1 (for
    [+Infinity]) or 0 (for [-Infinity]) and two-sided p-value exactly 0,
    which [fmtP] prints as "< .001". *)
Theorem infinite_statistic_p_zero (df : float) :
  is_finite df = true ->
  studentTCdf host infinity df = 1 /\
  studentTCdf host neg_infinity df = 0 /\
  pTwoSidedFromT host infinity df = 0 /\
  pTwoSidedFromT host neg_infinity df = 0 /\
  fmtP host (pTwoSidedFromT host neg_infinity df) = "< .001"%string.
Proof.
  intros Hf.
  assert (Hib : regIncompleteBeta host (df / 2) 0.5 (df / (df + infinity)) = 0).
  { apply regIncompleteBeta_zero_x. rewrite add_infinity_r by exact Hf.
    apply div_infinity_r, Hf. }
  assert (H1 : studentTCdf host infinity df = 1).
  { unfold studentTCdf. change (infinity * infinity) with infinity. cbv zeta.
    rewrite Hib. reflexivity. }
  assert (H2 : studentTCdf host neg_infinity df = 0).
  { unfold studentTCdf. change (neg_infinity * neg_infinity) with infinity. cbv zeta.
    rewrite Hib. reflexivity. }
  assert (H3 : pTwoSidedFromT host infinity df = 0).
  { unfold pTwoSidedFromT. change (Math_abs infinity) with infinity. cbv zeta.
    rewrite H1. reflexivity. }
  assert (H4 : pTwoSidedFromT host neg_infinity df = 0).
  { unfold pTwoSidedFromT. change (Math_abs neg_infinity) with infinity. cbv zeta.
    rewrite H1. reflexivity. }
  repeat split; try assumption. rewrite H4. reflexivity.
Qed.

(** X6: the paired test is the one-sample test of the differences against
    0: the same statistic, degrees of freedom, p-value and effect size. *)
Theorem pairedTTest_is_oneSampleT_of_diffs (a b : list float) :
  let p := pairedTTest host a b in
  let o := oneSampleT host (diffs a b) 0 in
  pr_t p = os_t o /\ pr_df p = os_df o /\ pr_p p = os_p o /\ pr_d p = os_d o.
Proof.
  unfold pairedTTest, oneSampleT. fold (diffs a b). cbv zeta.
  cbn [pr_t pr_df pr_p pr_d os_t os_df os_p os_d]. rewrite !sub_zero_r. repeat split.
Qed.

(** X7: for vectors of equal length the p-value of the paired test does
    not depend on the order of the two samples. *)
Theorem pairedTTest_p_order_independent (a b : list float) :
  length a = length b ->
  pr_p (pairedTTest host b a) = pr_p (pairedTTest host a b).
Proof. intros H. apply (pairedTTest_swap host a b H). Qed.

Lemma pearson_sums_swap (x y : list float) (mx my : float) (idxs : list nat) (num dx dy : float) :
  fold_left
    (fun '(num, dx, dy) i =>
       let vx := index y i - my in
       let vy := index x i - mx in
       (num + vx * vy, dx + vx * vx, dy + vy * vy)) idxs (num, dy, dx) =
  (let '(n, a, b) :=
     fold_left
       (fun '(num, dx, dy) i =>
          let vx := index x i - mx in
          let vy := index y i - my in
          (num + vx * vy, dx + vx * vx, dy + vy * vy)) idxs (num, dx, dy) in
   (n, b, a)).
Proof.
  revert num dx dy. induction idxs as [|i idxs IH]; intros num dx dy; [reflexivity|].
  cbn [fold_left]. cbv zeta.
  rewrite (mul_comm (index y i - my) (index x i - mx)). apply IH.
Qed.

Lemma pearson_sums_sym (x y : list float) (mx my : float) :
  length x = length y ->
  pearson_sums y x my mx = (let '(n, a, b) := pearson_sums x y mx my in (n, b, a)).
Proof.
  intros Hlen. unfold pearson_sums. rewrite <- Hlen. apply pearson_sums_swap.
Qed.

(** X8: for vectors of equal length the Pearson correlation is symmetric:
    swapping [x] and [y] gives the same [r], [t], [df] and [p]. *)
Theorem pearsonCorrelation_symmetric (x y : list float) :
  length x = length y ->
  pearsonCorrelation host y x = pearsonCorrelation host x y.
Proof.
  intros Hlen. unfold pearsonCorrelation.
  rewrite (pearson_sums_sym x y (mean x) (mean y) Hlen), <- Hlen.
  destruct (pearson_sums x y (mean x) (mean y)) as [[num dx] dy]. cbv zeta.
  rewrite (mul_comm dy dx). reflexivity.
Qed.

(** X9: swapping the two groups of the Welch test negates the statistic
    and Hedges' g (as numbers, [SameValueZero]), keeps the degrees of freedom
    and the p-value, and swaps the two summaries. *)
Theorem welchTTest_antisymmetric (a b : list float) :
  let ab := welchTTest host a b in
  let ba := welchTTest host b a in
  SameValueZero (w_t ba) (- w_t ab) = true /\
  SameValueZero (w_g ba) (- w_g ab) = true /\
  w_df ba = w_df ab /\
  w_p ba = w_p ab /\
  w_sa ba = w_sb ab /\ w_sb ba = w_sa ab.
Proof.
  cbv zeta. unfold welchTTest. cbv zeta. cbn [w_t w_g w_df w_p w_sa w_sb].
  set (sa := summarize a). set (sb := summarize b).
  set (va := pow2 (s_sd sa)). set (vb := pow2 (s_sd sb)).
  rewrite (add_comm (vb / s_n sb) (va / s_n sa)).
  rewrite (add_comm (pow2 vb / _) (pow2 va / _)).
  rewrite (add_comm ((s_n sb - 1) * vb) ((s_n sa - 1) * va)).
  rewrite (add_comm (s_n sb) (s_n sa)).
  pose proof (negated_sub_swap (s_mean sa) (s_mean sb)) as Hm.
  assert (Ht : negated ((s_mean sa - s_mean sb) / Math_sqrt (va / s_n sa + vb / s_n sb))
                       ((s_mean sb - s_mean sa) / Math_sqrt (va / s_n sa + vb / s_n sb)))
    by (apply negated_div, Hm).
  repeat split.
  - apply negated_SameValueZero, Ht.
  - apply negated_SameValueZero, negated_mul, negated_div, Hm.
  - unfold pTwoSidedFromT, Math_abs. rewrite (negated_abs _ _ Ht). reflexivity.
Qed.

End EngineExtras.

(** X10: a sample of one observation never has a finite standard
    deviation or standard error, whatever the observation. *)
Theorem singleton_sample_has_no_finite_sd (v : float) :
  is_finite (s_sd (summarize [v])) = false /\
  is_finite (s_se (summarize [v])) = false.
Proof.
  unfold summarize. cbv zeta. cbn [s_sd s_se].
  assert (H : is_finite (sd [v]) = false).
  { unfold sd, Math_sqrt, varianceSample. apply sqrt_not_finite.
    change (Number_of_nat (length [v]) - 1) with 0. apply div_zero_not_finite. }
  split; [exact H|].
  change (Math_sqrt (Number_of_nat (length [v]))) with 1.
  apply div_one_not_finite, H.
Qed.

(** ** Extracting the vectors *)

Section Extraction.
Context (host : Host).

Lemma toNumberMaybe_finite (v : Value) (n : float) :
  toNumberMaybe host v = inr (Some n) -> finite_number n.
Proof.
  unfold toNumberMaybe, finite_number. destruct v as [s|name]; [|discriminate].
  destruct (negb (truthy (String_trim host s))); [discriminate|].
  destruct (Number_isFinite (Number_ofString host (String_trim host s))) eqn:E;
    [|discriminate].
  intros [= <-]. exact E.
Qed.

(** A cell throws in [toNumberMaybe] exactly when the row does not own the
    column and [Object.prototype] has a member of that name. *)
Lemma toNumberMaybe_cell (r : gmap string string) (col : string) :
  match toNumberMaybe host (cell r col) with
  | inl message =>
      message = trim_TypeError host col /\ inherited col = true /\ r !! col = None
  | inr _ => inherited col = false \/ is_Some (r !! col)
  end.
Proof.
  unfold cell. destruct (r !! col) as [s|] eqn:Hr.
  - destruct (toNumberMaybe host (Str s)) eqn:E; [|right; eexists; reflexivity].
    unfold toNumberMaybe in E.
    destruct (negb _); [discriminate|]. destruct (Number_isFinite _); discriminate.
  - destruct (inherited col) eqn:Hi.
    + cbn [toNumberMaybe]. auto.
    + destruct (toNumberMaybe host (Str "")) eqn:E; [|left; reflexivity].
      unfold toNumberMaybe in E.
      destruct (negb _); [discriminate|]. destruct (Number_isFinite _); discriminate.
Qed.

Lemma toNumberMaybe_throws (r : gmap string string) (col message : string) :
  toNumberMaybe host (cell r col) = inl message ->
  message = trim_TypeError host col /\ inherited col = true /\ r !! col = None.
Proof.
  intros H. pose proof (toNumberMaybe_cell r col) as Hc. rewrite H in Hc. exact Hc.
Qed.

(** Destructs the next read of a cell, or the extraction of the remaining
    rows, in a goal about an extraction. *)
Ltac step_extraction :=
  match goal with
  | |- context [bind (toNumberMaybe ?h (cell ?r ?col)) _] =>
      let E := fresh "E" in
      destruct (toNumberMaybe h (cell r col)) as [?|[?|]] eqn:E; cbn [bind]
  | |- context [bind ?x _] =>
      let E := fresh "E" in
      destruct x as [?|?] eqn:E; cbn [bind]
  end.

Lemma getVector_finite (rs : list (gmap string string)) (col : string) (vec : list float) :
  getVector host rs col = inr vec -> Forall finite_number vec.
Proof.
  revert vec. induction rs as [|r rs IH]; intros vec; cbn [getVector].
  - intros [= <-]. constructor.
  - repeat step_extraction; try discriminate; intros [= <-].
    + constructor; [eapply toNumberMaybe_finite; eassumption|apply IH; reflexivity].
    + apply IH. reflexivity.
Qed.

Lemma getPoints_finite (rs : list (gmap string string)) (xCol yCol : string)
      (pts : list (float * float)) :
  getPoints host rs xCol yCol = inr pts ->
  Forall (fun p => finite_number (fst p) /\ finite_number (snd p)) pts.
Proof.
  revert pts. induction rs as [|r rs IH]; intros pts; cbn [getPoints].
  - intros [= <-]. constructor.
  - repeat step_extraction; try discriminate; intros [= <-];
      try (apply IH; reflexivity).
    constructor; [|apply IH; reflexivity].
    split; eapply toNumberMaybe_finite; eassumption.
Qed.

Lemma getPoints_length (rs : list (gmap string string)) (xCol yCol : string)
      (pts : list (float * float)) :
  getPoints host rs xCol yCol = inr pts -> (length pts <= length rs)%nat.
Proof.
  revert pts. induction rs as [|r rs IH]; intros pts; cbn [getPoints].
  - intros [= <-]. reflexivity.
  - repeat step_extraction; try discriminate; intros [= <-];
      specialize (IH _ eq_refl); cbn [length]; lia.
Qed.

(** [getPaired] and the loop of the correlation branch read the cells in
    the same order: they throw on the same cell, and return the same
    pairs. *)
Lemma getPaired_points (rs : list (gmap string string)) (aCol bCol : string) :
  getPaired host rs aCol bCol =
  match getPoints host rs aCol bCol with
  | inl message => inl message
  | inr pts => inr (map fst pts, map snd pts)
  end.
Proof.
  induction rs as [|r rs IH]; [reflexivity|].
  cbn [getPaired getPoints]. rewrite IH.
  destruct (toNumberMaybe host (cell r aCol)) as [?|[?|]]; cbn [bind]; try reflexivity;
    (destruct (toNumberMaybe host (cell r bCol)) as [?|[?|]]; cbn [bind]; try reflexivity);
    destruct (getPoints host rs aCol bCol); reflexivity.
Qed.

Lemma combine_fst_snd {A B : Type} (l : list (A * B)) :
  combine (map fst l) (map snd l) = l.
Proof.
  induction l as [|[x y] l IH]; [reflexivity|]. cbn [map combine fst snd]. rewrite IH.
  reflexivity.
Qed.

(** X11: [getPaired] throws exactly when the loop of the correlation
    branch throws on the same columns, with the same error; otherwise its
    two vectors have the same length, at most the number of rows, and pair
    up to exactly the points that the correlation analysis extracts. *)
Theorem getPaired_aligned (rs : list (gmap string string)) (aCol bCol : string) :
  match getPaired host rs aCol bCol with
  | inl message => getPoints host rs aCol bCol = inl message
  | inr (a, b) =>
      length a = length b /\
      (length a <= length rs)%nat /\
      getPoints host rs aCol bCol = inr (combine a b)
  end.
Proof.
  rewrite getPaired_points.
  destruct (getPoints host rs aCol bCol) as [message|pts] eqn:E; [reflexivity|].
  rewrite !length_map. split; [reflexivity|].
  split; [eapply getPoints_length, E|].
  rewrite combine_fst_snd. reflexivity.
Qed.

Lemma getGrouped_finite (rs : list (gmap string string)) (outcome gVar A B : string)
      (a b : list float) :
  getGrouped host rs outcome gVar A B = inr (a, b) ->
  Forall finite_number a /\ Forall finite_number b.
Proof.
  revert a b. induction rs as [|r rs IH]; intros a b; cbn [getGrouped]; cbv zeta.
  - intros [= <- <-]. split; constructor.
  - repeat step_extraction; try discriminate;
      match goal with p : (list float * list float)%type |- _ => destruct p as [a' b'] end;
      destruct (IH a' b' eq_refl) as [Ha Hb].
    + match goal with H : toNumberMaybe _ _ = _ |- _ => apply toNumberMaybe_finite in H end.
      intros [= <- <-].
      split; match goal with |- context [if ?c then _ else _] => destruct c end;
        try constructor; assumption.
    + intros [= <- <-]. split; assumption.
Qed.

(** X12: every number handed to a test procedure is finite: what
    [getVector], [getPaired], [getGrouped] and the loop of the correlation
    branch return, when no cell throws, holds only numbers that
    [toNumberMaybe] accepts. *)
Theorem extracted_values_are_finite (rs : list (gmap string string)) :
  (forall col,
      match getVector host rs col with
      | inr vec => Forall finite_number vec
      | inl _ => True
      end) /\
  (forall aCol bCol,
      match getPaired host rs aCol bCol with
      | inr (a, b) => Forall finite_number a /\ Forall finite_number b
      | inl _ => True
      end) /\
  (forall outcome gVar A B,
      match getGrouped host rs outcome gVar A B with
      | inr (a, b) => Forall finite_number a /\ Forall finite_number b
      | inl _ => True
      end) /\
  (forall xCol yCol,
      match getPoints host rs xCol yCol with
      | inr pts => Forall (fun p => finite_number (fst p) /\ finite_number (snd p)) pts
      | inl _ => True
      end).
Proof.
  split; [|split; [|split]].
  - intros col. destruct (getVector host rs col) eqn:E; [exact I|].
    eapply getVector_finite, E.
  - intros aCol bCol. rewrite getPaired_points.
    destruct (getPoints host rs aCol bCol) as [|pts] eqn:E; [exact I|].
    pose proof (getPoints_finite _ _ _ _ E) as H. clear E.
    induction H as [|p l [Hx Hy] _ [IH1 IH2]]; cbn [map]; split; constructor; assumption.
  - intros outcome gVar A B.
    destruct (getGrouped host rs outcome gVar A B) as [|[a b]] eqn:E; [exact I|].
    eapply getGrouped_finite, E.
  - intros xCol yCol. destruct (getPoints host rs xCol yCol) eqn:E; [exact I|].
    eapply getPoints_finite, E.
Qed.

(** X13: for two different group names no row is counted twice: the sizes
    of the two groups that [getGrouped] returns add up to at most the
    number of rows. *)
Theorem getGrouped_distinct_groups (rs : list (gmap string string))
        (outcome gVar A B : string) (a b : list float) :
  A <> B ->
  getGrouped host rs outcome gVar A B = inr (a, b) ->
  (length a + length b <= length rs)%nat.
Proof.
  intros Hne. revert a b.
  induction rs as [|r rs IH]; intros a b; cbn [getGrouped]; cbv zeta.
  - intros [= <- <-]. reflexivity.
  - repeat step_extraction; try discriminate;
      match goal with p : (list float * list float)%type |- _ => destruct p as [a' b'] end;
      specialize (IH a' b' eq_refl); intros [= <- <-]; cbn [length]; [|lia].
    destruct (String.eqb_spec (String_trim host (String_of host (cell r gVar))) A) as [E1|E1],
             (String.eqb_spec (String_trim host (String_of host (cell r gVar))) B) as [E2|E2];
      cbn [length]; try lia. congruence.
Qed.

(** The error of an extraction is the [TypeError] of a cell of one of the
    columns it reads, in a row that does not own the column. *)
Lemma thrown_on_head (r : gmap string string) (rs : list (gmap string string))
      (col message : string) :
  toNumberMaybe host (cell r col) = inl message -> thrown_on host (r :: rs) col message.
Proof.
  intros H. apply toNumberMaybe_throws in H. destruct H as (-> & Hi & Hr).
  split; [reflexivity|]. split; [exact Hi|]. left. exact Hr.
Qed.

Lemma thrown_on_tail (r : gmap string string) (rs : list (gmap string string))
      (col message : string) :
  thrown_on host rs col message -> thrown_on host (r :: rs) col message.
Proof. intros (-> & Hi & Hr). split; [reflexivity|]. split; [exact Hi|]. right. exact Hr. Qed.

Lemma getVector_throws (rs : list (gmap string string)) (col message : string) :
  getVector host rs col = inl message -> thrown_on host rs col message.
Proof.
  induction rs as [|r rs IH]; cbn [getVector]; [discriminate|].
  destruct (toNumberMaybe host (cell r col)) as [m|v] eqn:E; cbn [bind].
  - intros [= <-]. apply thrown_on_head, E.
  - destruct (getVector host rs col) as [m|vec]; cbn [bind]; [|discriminate].
    intros [= <-]. apply thrown_on_tail, IH. reflexivity.
Qed.

Lemma getPoints_throws (rs : list (gmap string string)) (xCol yCol message : string) :
  getPoints host rs xCol yCol = inl message ->
  thrown_on host rs xCol message \/ thrown_on host rs yCol message.
Proof.
  induction rs as [|r rs IH]; cbn [getPoints]; [discriminate|].
  destruct (toNumberMaybe host (cell r xCol)) as [m|x] eqn:Ex; cbn [bind].
  { intros [= <-]. left. apply thrown_on_head, Ex. }
  destruct (toNumberMaybe host (cell r yCol)) as [m|y] eqn:Ey; cbn [bind].
  { intros [= <-]. right. apply thrown_on_head, Ey. }
  destruct (getPoints host rs xCol yCol) as [m|pts]; cbn [bind]; [|discriminate].
  intros [= <-]. destruct (IH eq_refl) as [H|H]; [left|right]; apply thrown_on_tail, H.
Qed.

Lemma getPaired_throws (rs : list (gmap string string)) (aCol bCol message : string) :
  getPaired host rs aCol bCol = inl message ->
  thrown_on host rs aCol message \/ thrown_on host rs bCol message.
Proof.
  rewrite getPaired_points.
  destruct (getPoints host rs aCol bCol) as [m|pts] eqn:E; [|discriminate].
  intros [= <-]. eapply getPoints_throws, E.
Qed.

Lemma getGrouped_throws (rs : list (gmap string string)) (outcome gVar A B message : string) :
  getGrouped host rs outcome gVar A B = inl message -> thrown_on host rs outcome message.
Proof.
  induction rs as [|r rs IH]; cbn [getGrouped]; cbv zeta; [discriminate|].
  destruct (toNumberMaybe host (cell r outcome)) as [m|v] eqn:E; cbn [bind].
  - intros [= <-]. apply thrown_on_head, E.
  - destruct (getGrouped host rs outcome gVar A B) as [m|[a b]]; cbn [bind]; [|discriminate].
    intros [= <-]. apply thrown_on_tail, IH. reflexivity.
Qed.

(** What the [try] block throws while it reads the columns. *)
Lemma output_try_throws (E : Procedures) (st : PageState) (message : string) :
  output_try host E st = inl message ->
  In message output_messages \/
  exists col, In col (columns_read st) /\ thrown_on host (rows st) col message.
Proof.
  unfold output_try, columns_read. destruct (analysis st).
  - destruct (getPaired host (rows st) (pairedA st) (pairedB st)) as [m|[a b]] eqn:Ex;
      cbn [bind].
    + intros [= <-]. right.
      destruct (getPaired_throws _ _ _ _ Ex) as [H|H]; eexists; (split; [|exact H]);
        simpl; auto.
    + unfold analyse_paired. destruct (length a <? 3)%nat; [|discriminate].
      intros [= <-]. left. simpl. auto.
  - destruct (getVector host (rows st) (oneVar st)) as [m|vec] eqn:Ex; cbn [bind].
    + intros [= <-]. right. eexists. split; [|eapply getVector_throws, Ex]. simpl. auto.
    + unfold analyse_onesample. destruct (length vec <? 3)%nat.
      * intros [= <-]. left. simpl. auto.
      * destruct (negb _); [|discriminate]. intros [= <-]. left. simpl. auto.
  - destruct (groups_unselected st).
    { intros [= <-]. left. simpl. auto. }
    destruct (getGrouped host (rows st) (groupOutcome st) (groupVar st)
                         (groupA st) (groupB st)) as [m|[a b]] eqn:Ex; cbn [bind].
    + intros [= <-]. right. eexists. split; [|eapply getGrouped_throws, Ex]. simpl. auto.
    + unfold analyse_independent. destruct (_ || _); [|discriminate].
      intros [= <-]. left. simpl. auto 10.
  - destruct (getPoints host (rows st) (corrX st) (corrY st)) as [m|pts] eqn:Ex; cbn [bind].
    + intros [= <-]. right.
      destruct (getPoints_throws _ _ _ _ Ex) as [H|H]; eexists; (split; [|exact H]);
        simpl; auto.
    + unfold analyse_correlation. destruct (length pts <? 4)%nat; [|discriminate].
      intros [= <-]. left. simpl. auto 10.
Qed.

(** A result that the [try] block returns is not of the [error] kind. *)
Lemma output_try_returns (E : Procedures) (st : PageState) (out : Output) :
  output_try host E st = inr out ->
  match out with Out_error _ => False | _ => True end.
Proof.
  unfold output_try. destruct (analysis st).
  - destruct (getPaired _ _ _ _) as [m|[a b]]; cbn [bind]; [discriminate|].
    unfold analyse_paired. destruct (length a <? 3)%nat; [discriminate|].
    intros [= <-]. exact I.
  - destruct (getVector _ _ _) as [m|vec]; cbn [bind]; [discriminate|].
    unfold analyse_onesample. destruct (length vec <? 3)%nat; [discriminate|].
    destruct (negb _); [discriminate|]. intros [= <-]. exact I.
  - destruct (groups_unselected st); [discriminate|].
    destruct (getGrouped _ _ _ _ _ _) as [m|[a b]]; cbn [bind]; [discriminate|].
    unfold analyse_independent. destruct (_ || _); [discriminate|].
    intros [= <-]. exact I.
  - destruct (getPoints _ _ _ _) as [m|pts]; cbn [bind]; [discriminate|].
    unfold analyse_correlation. destruct (length pts <? 4)%nat; [discriminate|].
    intros [= <-]. exact I.
Qed.

(** X14: [output] is [null] exactly when no rows are loaded; a result of
    some kind is produced only by the analysis of that kind, from an
    extraction that returned input of the required size (and a finite
    reference value, two selected groups); an error carries one of the six
    messages of the guards, or the message of the [TypeError] raised on a
    cell of a column that the analysis reads, that [Object.prototype] has
    and that some row does not own. *)
Theorem output_kind_and_size (E : Procedures) (st : PageState) :
  match output_with host E st with
  | None => rows st = []
  | Some (Out_paired _ _) =>
      analysis st = paired /\
      exists a b, getPaired host (rows st) (pairedA st) (pairedB st) = inr (a, b) /\
                  (3 <= length a)%nat
  | Some (Out_onesample _) =>
      analysis st = onesample /\
      (exists vec, getVector host (rows st) (oneVar st) = inr vec /\
                   (3 <= length vec)%nat) /\
      finite_number (Number_ofString host (oneMu st))
  | Some (Out_independent _ _) =>
      analysis st = independent /\ groups_unselected st = false /\
      exists a b, getGrouped host (rows st) (groupOutcome st) (groupVar st)
                             (groupA st) (groupB st) = inr (a, b) /\
                  (2 <= length a)%nat /\ (2 <= length b)%nat
  | Some (Out_correlation pts _) =>
      analysis st = correlation /\
      getPoints host (rows st) (corrX st) (corrY st) = inr pts /\ (4 <= length pts)%nat
  | Some (Out_error message) =>
      rows st <> [] /\
      (In message output_messages \/
       exists col, In col (columns_read st) /\ inherited col = true /\
                   Exists (fun r => r !! col = None) (rows st) /\
                   message = trim_TypeError host col)
  end.
Proof.
  unfold output_with.
  destruct (rows st) as [|r rs] eqn:Hr; [reflexivity|].
  destruct (output_try host E st) as [message|out] eqn:Hout.
  { split; [discriminate|].
    destruct (output_try_throws E st message Hout) as [H|(col & Hin & -> & Hi & Hex)];
      [left; exact H|].
    right. exists col. rewrite <- Hr. auto. }
  revert Hout. unfold output_try. rewrite Hr. destruct (analysis st).
  - destruct (getPaired host (r :: rs) (pairedA st) (pairedB st)) as [m|[a b]] eqn:Ex;
      cbn [bind]; [discriminate|].
    unfold analyse_paired. destruct (Nat.ltb_spec (length a) 3); [discriminate|].
    intros [= <-]. split; [reflexivity|]. exists a, b. split; [reflexivity|lia].
  - destruct (getVector host (r :: rs) (oneVar st)) as [m|vec] eqn:Ex; cbn [bind];
      [discriminate|].
    unfold analyse_onesample. destruct (Nat.ltb_spec (length vec) 3); [discriminate|].
    destruct (Number_isFinite (Number_ofString host (oneMu st))) eqn:Hmu; cbn [negb];
      [|discriminate].
    intros [= <-]. split; [reflexivity|]. split; [|exact Hmu].
    exists vec. split; [reflexivity|lia].
  - destruct (groups_unselected st) eqn:Hg; [discriminate|].
    destruct (getGrouped host (r :: rs) (groupOutcome st) (groupVar st)
                         (groupA st) (groupB st)) as [m|[a b]] eqn:Ex; cbn [bind];
      [discriminate|].
    unfold analyse_independent.
    destruct (Nat.ltb_spec (length a) 2), (Nat.ltb_spec (length b) 2); cbn [orb];
      try discriminate.
    intros [= <-]. split; [reflexivity|]. split; [reflexivity|].
    exists a, b. repeat split; lia.
  - destruct (getPoints host (r :: rs) (corrX st) (corrY st)) as [m|pts] eqn:Ex; cbn [bind];
      [discriminate|].
    unfold analyse_correlation. destruct (Nat.ltb_spec (length pts) 4); [discriminate|].
    intros [= <-]. split; [reflexivity|]. split; [reflexivity|lia].
Qed.

(** X15: with rows loaded, the independent analysis without two distinct
    selected groups reports "Select two different groups.", and the
    one-sample analysis of at least 3 values with a reference value that is
    not a finite number reports that it must be a number, whatever the
    procedures would compute. *)
Theorem invalid_parameters_are_reported (E : Procedures) (st : PageState) :
  rows st <> [] ->
  (analysis st = independent -> groups_unselected st = true ->
   output_with host E st = Some (Out_error "Select two different groups.")) /\
  (analysis st = onesample ->
   forall vec, getVector host (rows st) (oneVar st) = inr vec ->
   (3 <= length vec)%nat ->
   Number_isFinite (Number_ofString host (oneMu st)) = false ->
   output_with host E st = Some (Out_error "μ0 must be a number.")).
Proof.
  intros Hrows. unfold output_with, output_try.
  destruct (rows st) as [|r rs] eqn:Hr; [congruence|].
  split.
  - intros -> ->. reflexivity.
  - intros -> vec -> Hlen Hmu. cbn [bind]. unfold analyse_onesample.
    destruct (Nat.ltb_spec (length vec) 3); [lia|].
    rewrite Hmu. reflexivity.
Qed.

(** X24: [getVector] throws exactly when [Object.prototype] has a member
    named as the column and some row does not own the column; the error is
    then the [TypeError] of [.trim()] on that member. *)
Theorem getVector_throws_on_inherited_column (rs : list (gmap string string)) (col : string) :
  match getVector host rs col with
  | inl message =>
      message = trim_TypeError host col /\ inherited col = true /\
      Exists (fun r => r !! col = None) rs
  | inr vec =>
      (length vec <= length rs)%nat /\
      (inherited col = false \/ Forall (fun r => is_Some (r !! col)) rs)
  end.
Proof.
  induction rs as [|r rs IH]; cbn [getVector].
  - split; [reflexivity|]. right. constructor.
  - pose proof (toNumberMaybe_cell r col) as Hc.
    destruct (toNumberMaybe host (cell r col)) as [m|v]; cbn [bind].
    + destruct Hc as (-> & Hi & Hr). repeat split; auto.
    + destruct (getVector host rs col) as [m|vec]; cbn [bind].
      * destruct IH as (-> & Hi & Hex). repeat split; auto.
      * destruct IH as [Hlen IH]. split; [destruct v; cbn [length]; lia|].
        destruct Hc as [Hc|Hc]; [left; exact Hc|].
        destruct IH as [IH|IH]; [left; exact IH|]. right. constructor; assumption.
Qed.

(** X25: with rows loaded and the paired analysis selected, a first column
    whose name [Object.prototype] has and the first row does not own makes
    [output] the error with the [TypeError]'s message, whatever the
    procedures would compute. *)
Theorem inherited_column_is_reported (E : Procedures) (st : PageState)
        (r : gmap string string) (rs : list (gmap string string)) :
  rows st = r :: rs ->
  analysis st = paired ->
  inherited (pairedA st) = true ->
  r !! pairedA st = None ->
  output_with host E st = Some (Out_error (trim_TypeError host (pairedA st))).
Proof.
  intros Hr Ha Hi Hown. unfold output_with, output_try. rewrite Hr, Ha.
  cbn [getPaired]. unfold cell at 1. rewrite Hown, Hi. reflexivity.
Qed.

End Extraction.

(** ** Splitting the text *)

Section Splitting.
Local Open Scope string_scope.

Lemma concat_push_char (sep : string) (c : ascii) (pieces : list string) :
  pieces <> [] ->
  String.concat sep (push_char c pieces) = String c (String.concat sep pieces).
Proof.
  destruct pieces as [|p [|q rest]]; [congruence| |]; intros _; reflexivity.
Qed.

Lemma concat_cons_empty (sep : string) (pieces : list string) :
  pieces <> [] ->
  String.concat sep (EmptyString :: pieces) = sep ++ String.concat sep pieces.
Proof. destruct pieces; [congruence|]. intros _. reflexivity. Qed.

Lemma push_char_nonempty (c : ascii) (pieces : list string) : push_char c pieces <> [].
Proof. destruct pieces; discriminate. Qed.

Lemma split_commas_nonempty (s : string) : split_commas s <> [].
Proof.
  destruct s as [|c rest]; cbn [split_commas]; [discriminate|].
  destruct (Ascii.eqb c ","); [discriminate|apply push_char_nonempty].
Qed.

Lemma split_lines_nonempty (s : string) : split_lines s <> [].
Proof.
  destruct s as [|c rest]; cbn [split_lines]; [discriminate|].
  destruct (Ascii.eqb c "010"); [discriminate|].
  destruct rest as [|c' rest']; [apply push_char_nonempty|].
  destruct (Ascii.eqb c "013" && Ascii.eqb c' "010");
    [discriminate|apply push_char_nonempty].
Qed.

Lemma Forall_push_char (P : string -> Prop) (c : ascii) (pieces : list string) :
  (forall p, P p -> P (String c p)) -> P (String c EmptyString) ->
  Forall P pieces -> Forall P (push_char c pieces).
Proof.
  intros Hc H1 H. destruct H; cbn [push_char]; constructor; auto.
Qed.

(** X16: joining the pieces of [s.split(",")] with commas gives [s] back,
    and no piece contains a comma. *)
Theorem split_commas_join (s : string) :
  String.concat "," (split_commas s) = s /\
  Forall (fun piece => has_char "," piece = false) (split_commas s).
Proof.
  induction s as [|c rest [IH1 IH2]]; [split; [reflexivity|repeat constructor]|].
  cbn [split_commas]. destruct (Ascii.eqb_spec c ",") as [->|Hc].
  - split.
    + rewrite concat_cons_empty by apply split_commas_nonempty. rewrite IH1. reflexivity.
    + constructor; [reflexivity|exact IH2].
  - assert (Hf : Ascii.eqb c "," = false) by (apply Ascii.eqb_neq; exact Hc).
    split.
    + rewrite concat_push_char by apply split_commas_nonempty. rewrite IH1. reflexivity.
    + apply Forall_push_char; [| |exact IH2].
      * intros p Hp. cbn [has_char]. rewrite Hf, Hp. reflexivity.
      * cbn [has_char]. rewrite Hf. reflexivity.
Qed.

Lemma split_lines_no_LF (s : string) :
  Forall (fun piece => has_char "010" piece = false) (split_lines s).
Proof.
  assert (H : forall n s, (String.length s <= n)%nat ->
              Forall (fun piece => has_char "010" piece = false) (split_lines s)).
  { clear s. induction n as [|n IH]; intros s Hn.
    - destruct s; [repeat constructor|simpl in Hn; lia].
    - destruct s as [|c rest]; [repeat constructor|].
      cbn [String.length] in Hn. cbn [split_lines].
      destruct (Ascii.eqb c "010") eqn:Hc.
      + constructor; [reflexivity|apply IH; lia].
      + assert (Hpush : Forall (fun piece => has_char "010" piece = false)
                               (push_char c (split_lines rest))).
        { apply Forall_push_char; [| |apply IH; lia].
          - intros p Hp. cbn [has_char]. rewrite Hc, Hp. reflexivity.
          - cbn [has_char]. rewrite Hc. reflexivity. }
        destruct rest as [|c' rest']; [exact Hpush|].
        destruct (Ascii.eqb c "013" && Ascii.eqb c' "010"); [|exact Hpush].
        constructor; [reflexivity|]. apply IH. cbn [String.length] in Hn. lia. }
  apply (H (String.length s)). lia.
Qed.

Lemma split_lines_no_CR (s : string) :
  has_char "013" s = false ->
  String.concat (String "010" EmptyString) (split_lines s) = s.
Proof.
  induction s as [|c rest IH]; [reflexivity|].
  cbn [has_char]. intros H. apply orb_false_elim in H. destruct H as [Hc Hrest].
  cbn [split_lines]. destruct (Ascii.eqb_spec c "010") as [->|Hn].
  - rewrite concat_cons_empty by apply split_lines_nonempty. rewrite IH by exact Hrest.
    reflexivity.
  - rewrite Hc. cbn [andb].
    assert (E : String.concat (String "010" EmptyString) (push_char c (split_lines rest))
                = String c rest).
    { rewrite concat_push_char by apply split_lines_nonempty. rewrite IH by exact Hrest.
      reflexivity. }
    destruct rest; exact E.
Qed.

(** X17: no piece of [text.split(/\r?\n/)] contains a line feed, and for a
    text without carriage returns joining the pieces with line feeds gives
    the text back. *)
Theorem split_lines_join (s : string) :
  Forall (fun piece => has_char "010" piece = false) (split_lines s) /\
  (has_char "013" s = false ->
   String.concat (String "010" EmptyString) (split_lines s) = s).
Proof. split; [apply split_lines_no_LF|apply split_lines_no_CR]. Qed.

End Splitting.

(** ** The rows of an upload *)

Section Rows.
Context (host : Host).
Local Open Scope string_scope.

Lemma set_field_lookup_same (row : gmap string string) (h v : string) :
  h <> "__proto__" -> set_field row h v !! h = Some v.
Proof.
  intros Hp. unfold set_field. destruct (String.eqb_spec h "__proto__"); [congruence|].
  apply lookup_insert_eq.
Qed.

Lemma set_field_lookup_other (row : gmap string string) (h' h v : string) :
  h' <> h \/ h' = "__proto__" -> set_field row h' v !! h = row !! h.
Proof.
  intros H. unfold set_field. destruct (String.eqb_spec h' "__proto__"); [reflexivity|].
  apply lookup_insert_ne. tauto.
Qed.

Lemma fold_row_other (cells hs : list string) (k : nat) (acc : gmap string string) (h : string) :
  h ∉ hs \/ h = "__proto__" ->
  fold_left
    (fun row ih => set_field row (snd ih) (String_trim host (nth (fst ih) cells "")))
    (combine (seq k (length hs)) hs) acc !! h = acc !! h.
Proof.
  revert k acc. induction hs as [|h' hs IH]; intros k acc H; [reflexivity|].
  cbn [length seq combine fold_left fst snd]. rewrite IH.
  - apply set_field_lookup_other. destruct H as [H| ->].
    + left. intros ->. apply H. left.
    + destruct (String.eqb_spec h' "__proto__"); auto.
  - destruct H as [H|H]; [left|right; exact H]. intros Hin. apply H. right. exact Hin.
Qed.

Lemma fold_row_is_Some (cells hs : list string) (k : nat) (acc : gmap string string) (h : string) :
  is_Some (fold_left
    (fun row ih => set_field row (snd ih) (String_trim host (nth (fst ih) cells "")))
    (combine (seq k (length hs)) hs) acc !! h) <->
  is_Some (acc !! h) \/ (h ∈ hs /\ h <> "__proto__").
Proof.
  revert k acc. induction hs as [|h' hs IH]; intros k acc.
  - cbn [length seq combine fold_left]. split; [auto|]. intros [H|[H _]]; [exact H|].
    inversion H.
  - cbn [length seq combine fold_left fst snd]. rewrite IH.
    destruct (decide (h' = h /\ h' <> "__proto__")) as [[-> Hp]|Hn].
    + rewrite set_field_lookup_same by exact Hp. split; intros _.
      * right. split; [left|exact Hp].
      * left. eauto.
    + rewrite set_field_lookup_other.
      2:{ destruct (decide (h' = h)) as [->|]; [|auto].
          right. destruct (decide (h = "__proto__")); [assumption|tauto]. }
      split.
      * intros [H|[H Hp]]; [auto|]. right. split; [right; exact H|exact Hp].
      * intros [H|[H Hp]]; [auto|]. apply elem_of_cons in H. destruct H as [->|H].
        -- tauto.
        -- right. auto.
Qed.

Lemma fold_row_value (cells hs : list string) (k i : nat) (acc : gmap string string) (h : string) :
  NoDup hs -> hs !! i = Some h -> h <> "__proto__" ->
  fold_left
    (fun row ih => set_field row (snd ih) (String_trim host (nth (fst ih) cells "")))
    (combine (seq k (length hs)) hs) acc !! h =
  Some (String_trim host (nth (k + i) cells "")).
Proof.
  revert k i acc. induction hs as [|h' hs IH]; intros k i acc Hnd Hi Hp; [discriminate|].
  apply NoDup_cons in Hnd. destruct Hnd as [Hnotin Hnd].
  cbn [length seq combine fold_left fst snd].
  destruct i as [|i]; cbn in Hi.
  - injection Hi as ->. rewrite fold_row_other by (left; exact Hnotin).
    rewrite set_field_lookup_same by exact Hp. f_equal. f_equal. f_equal. lia.
  - rewrite (IH (S k) i) by assumption. f_equal. f_equal. f_equal. lia.
Qed.

(** X18: a parsed row has a field exactly for each header other than
    [__proto__]; when the headers are distinct, the field of the header in
    column [i] is the trimmed cell [i] of the line, and the empty string when
    the line is too short. *)
Theorem row_of_fields (headers cells : list string) (h : string) :
  (is_Some (row_of host headers cells !! h) <-> h ∈ headers /\ h <> "__proto__") /\
  (forall i, NoDup headers -> headers !! i = Some h -> h <> "__proto__" ->
             row_of host headers cells !! h = Some (String_trim host (nth i cells ""))).
Proof.
  unfold row_of. split.
  - rewrite fold_row_is_Some. rewrite lookup_empty. split.
    + intros [[x Hx]|H]; [discriminate|exact H].
    + auto.
  - intros i Hnd Hi Hp. rewrite (fold_row_value cells headers 0 i ∅ h Hnd Hi Hp).
    reflexivity.
Qed.

(** X19: [parseCSV] fails exactly when no line is left after dropping
    blank ones; otherwise it returns one row per kept line after the first,
    every row having the same fields. *)
Theorem parseCSV_rows (text : string) :
  match parseCSV host text with
  | None => kept_lines host text = []
  | Some rs =>
      exists first data,
        kept_lines host text = first :: data /\
        length rs = length data /\
        Forall (fun r => forall h,
                  is_Some (r !! h) <-> h ∈ headers_of host first /\ h <> "__proto__") rs
  end.
Proof.
  unfold parseCSV, kept_lines. fold (non_blank host).
  destruct (List.filter (non_blank host) (split_lines text)) as [|first data]; [reflexivity|].
  cbn [map]. exists first, data. split; [reflexivity|]. split; [rewrite !length_map; reflexivity|].
  apply Forall_forall. intros r Hr h.
  apply list_elem_of_In, in_map_iff in Hr. destruct Hr as (cells & <- & _).
  unfold row_of. rewrite fold_row_is_Some, lookup_empty. split.
  - intros [[x Hx]|H]; [discriminate|exact H].
  - auto.
Qed.

(** X20: an upload without a non-blank line leaves no rows and the
    engine's error message; a header alone leaves no rows and "No data rows
    found."; anything else leaves the parsed rows, one per data line, and no
    message. *)
Theorem handleFile_outcome (typeError_message text : string) :
  let u := handleFile host typeError_message text in
  match kept_lines host text with
  | [] => up_rows u = [] /\ up_err u = typeError_message
  | [_] => up_rows u = [] /\ up_err u = "No data rows found."
  | _ :: data => up_err u = "" /\ length (up_rows u) = length data /\
                 parseCSV host text = Some (up_rows u)
  end.
Proof.
  cbv zeta. unfold handleFile, parseCSV, kept_lines. fold (non_blank host).
  destruct (List.filter (non_blank host) (split_lines text)) as [|first [|l data]];
    cbn [map]; auto.
  cbn [up_rows up_err length]. rewrite !length_map. auto.
Qed.

(** X26: on the rows of an upload, a column that is one of the file's
    headers (other than [__proto__]), or that [Object.prototype] does not
    have, is read without a [TypeError]: the only errors of [output] are
    then the six of its guards. *)
Theorem uploaded_columns_are_read (E : Procedures) (st : PageState)
        (text first : string) (data : list string) :
  kept_lines host text = first :: data ->
  parseCSV host text = Some (rows st) ->
  (forall col, In col (columns_read st) ->
               inherited col = false \/
               (col ∈ headers_of host first /\ col <> "__proto__")) ->
  match output_with host E st with
  | Some (Out_error message) => In message output_messages
  | _ => True
  end.
Proof.
  unfold kept_lines, parseCSV. fold (non_blank host).
  intros -> [= Hrows] Hcols. cbn [map] in Hrows. fold (headers_of host first) in Hrows.
  unfold output_with. destruct (rows st) as [|r rs] eqn:Hr; [exact I|].
  destruct (output_try host E st) as [message|out] eqn:Hout.
  2:{ apply output_try_returns in Hout. destruct out; [exact I..|destruct Hout]. }
  destruct (output_try_throws host E st message Hout) as [H|(col & Hin & _ & Hi & Hex)];
    [exact H|].
  exfalso. rewrite Hr, <- Hrows in Hex.
  apply Exists_exists in Hex. destruct Hex as (row & Hrow & Hnone).
  apply list_elem_of_In, in_map_iff in Hrow. destruct Hrow as (cells & <- & _).
  destruct (Hcols col Hin) as [Hni|Hown]; [congruence|].
  assert (Hsome : is_Some (row_of host (headers_of host first) cells !! col)).
  { unfold row_of. rewrite fold_row_is_Some. right. exact Hown. }
  rewrite Hnone in Hsome. destruct Hsome as [x Hx]. discriminate.
Qed.

End Rows.

(** ** The earlier copy of the page *)

Section LegacyFacts.
Context (host : Host).

(** X21: the earlier copy of the statistics agrees with the engine: [std]
    is [sd], and its paired and one-sample tests return the same [t], [d]
    and [df]. *)
Theorem legacy_statistics_agree (a b : list float) (mu : float) :
  Legacy.std a = sd a /\
  Legacy.t (Legacy.pairedTTest a b) = pr_t (pairedTTest host a b) /\
  Legacy.d (Legacy.pairedTTest a b) = pr_d (pairedTTest host a b) /\
  Legacy.df (Legacy.pairedTTest a b) = pr_df (pairedTTest host a b) /\
  Legacy.os_t (Legacy.oneSampleT a mu) = os_t (oneSampleT host a mu) /\
  Legacy.os_df (Legacy.oneSampleT a mu) = os_df (oneSampleT host a mu).
Proof. repeat split. Qed.

Lemma indexOf_Some (headers : list string) (name : string) (i : nat) :
  Legacy.indexOf headers name = Some i ->
  headers !! i = Some name /\ forall j, (j < i)%nat -> headers !! j <> Some name.
Proof.
  revert i. induction headers as [|h rest IH]; intros i; cbn [Legacy.indexOf]; [discriminate|].
  destruct (String.eqb_spec h name) as [->|Hne].
  - intros [= <-]. split; [reflexivity|]. intros j Hj. lia.
  - destruct (Legacy.indexOf rest name) as [k|]; [|discriminate].
    intros [= <-]. destruct (IH k eq_refl) as [H1 H2]. split; [exact H1|].
    intros [|j] Hj; cbn; [congruence|]. apply H2. lia.
Qed.

Lemma indexOf_None (headers : list string) (name : string) :
  Legacy.indexOf headers name = None <-> name ∉ headers.
Proof.
  induction headers as [|h rest IH]; cbn [Legacy.indexOf].
  - split; [intros _ H; inversion H|reflexivity].
  - destruct (String.eqb_spec h name) as [->|Hne].
    + split; [discriminate|]. intros H. exfalso. apply H. left.
    + destruct (Legacy.indexOf rest name) as [k|]; cbn.
      * split; [discriminate|]. intros H. exfalso.
        assert (Hin : name ∈ rest).
        { destruct (decide (name ∈ rest)) as [|Hn]; [assumption|].
          apply IH in Hn. discriminate. }
        apply H. right. exact Hin.
      * split; [|reflexivity]. intros _ H. apply elem_of_cons in H.
        destruct H as [->|H]; [congruence|]. apply (proj1 IH eq_refl H).
Qed.

Lemma indexOf_elem (headers : list string) (name : string) (i : nat) :
  Legacy.indexOf headers name = Some i -> name ∈ headers.
Proof.
  intros H. destruct (decide (name ∈ headers)) as [|Hn]; [assumption|].
  apply indexOf_None in Hn. congruence.
Qed.

(** X22: the earlier [parseCSV] throws a [TypeError] when every line is
    empty, its first message when the header lacks [LVF] or [RVF], its second
    when only [Lateralization Index] is missing, and otherwise returns at
    most one row per data line, each with three finite numbers. *)
Theorem legacy_parseCSV_outcome (text : string) :
  let lines := List.filter (fun l => negb (String.eqb l "")) (split_lines text) in
  match Legacy.parseCSV host text with
  | inl Legacy.TypeError => lines = []
  | inl (Legacy.Error message) =>
      exists first data, lines = first :: data /\
        ((message = Legacy.missing_LVF_RVF /\
          ("LVF"%string ∉ headers_of host first \/ "RVF"%string ∉ headers_of host first)) \/
         (message = Legacy.missing_LI /\
          "LVF"%string ∈ headers_of host first /\ "RVF"%string ∈ headers_of host first /\
          "Lateralization Index"%string ∉ headers_of host first))
  | inr rs =>
      exists first data, lines = first :: data /\
        "LVF"%string ∈ headers_of host first /\ "RVF"%string ∈ headers_of host first /\
        "Lateralization Index"%string ∈ headers_of host first /\
        (length rs <= length data)%nat /\
        Forall (fun r => Legacy.all_finite r = true) rs
  end.
Proof.
  cbv zeta. unfold Legacy.parseCSV.
  destruct (List.filter _ (split_lines text)) as [|first data]; [reflexivity|].
  cbn [map]. fold (headers_of host first).
  destruct (Legacy.indexOf (headers_of host first) "LVF") as [i1|] eqn:E1.
  2:{ exists first, data. split; [reflexivity|]. left. split; [reflexivity|].
      left. apply indexOf_None, E1. }
  destruct (Legacy.indexOf (headers_of host first) "RVF") as [i2|] eqn:E2.
  2:{ exists first, data. split; [reflexivity|]. left. split; [reflexivity|].
      right. apply indexOf_None, E2. }
  apply indexOf_elem in E1, E2.
  destruct (Legacy.indexOf (headers_of host first) "Lateralization Index") as [i3|] eqn:E3.
  2:{ exists first, data. split; [reflexivity|]. right. split; [reflexivity|].
      split; [exact E1|]. split; [exact E2|]. apply indexOf_None, E3. }
  apply indexOf_elem in E3.
  exists first, data. split; [reflexivity|]. repeat (split; [assumption|]).
  split.
  - etransitivity; [apply filter_length_le|]. rewrite !length_map. reflexivity.
  - apply Forall_forall. intros r Hr. apply list_elem_of_In, filter_In in Hr. tauto.
Qed.

End LegacyFacts.

(** ** What the p-value field shows *)

Lemma has_char_app (c : ascii) (a b : string) :
  has_char c (String.append a b) = has_char c a || has_char c b.
Proof.
  induction a as [|c' a IH]; [reflexivity|].
  simpl. rewrite IH, orb_assoc. reflexivity.
Qed.

Lemma has_char_strip_leading_0 (s : string) :
  has_char "." (strip_leading_0 s) = has_char "." s.
Proof.
  destruct s as [|c rest]; [reflexivity|]. unfold strip_leading_0.
  destruct c as [[] [] [] [] [] [] [] []]; reflexivity.
Qed.

Lemma place_point_has_point (n : Z) (f : nat) : has_char "." (place_point n (S f)) = true.
Proof.
  unfold place_point. cbv zeta.
  rewrite has_char_app, has_char_app. cbn [has_char]. rewrite Ascii.eqb_refl.
  rewrite orb_true_r. reflexivity.
Qed.

Lemma bounded_mantissa (m : positive) (e : Z) :
  bounded prec emax m e = true -> (Zpos m < 2 ^ 53)%Z.
Proof.
  unfold bounded, canonical_mantissa. intros H. apply andb_prop in H. destruct H as [Hc _].
  apply Z.eqb_eq in Hc. unfold fexp, SpecFloat.emin, prec, emax in Hc.
  pose proof (digits2_bounds m) as [_ Hu].
  apply Z.lt_le_trans with (2 ^ Zpos (digits2_pos m))%Z; [exact Hu|].
  apply Z.pow_le_mono_r; lia.
Qed.

Lemma below_1e21 (m : positive) (e : Z) :
  bounded prec emax m e = true -> (e < 0)%Z -> at_least_1e21 m e = false.
Proof.
  intros Hb He. pose proof (bounded_mantissa m e Hb) as Hm.
  unfold at_least_1e21. destruct (Z.leb_spec 0 e); [lia|].
  apply Z.leb_gt.
  assert (Hp : (2 ^ 1 <= 2 ^ (- e))%Z) by (apply Z.pow_le_mono_r; lia).
  change (2 ^ 1)%Z with 2%Z in Hp. change (2 ^ 53)%Z with 9007199254740992%Z in Hm.
  change (10 ^ 21)%Z with 1000000000000000000000%Z. lia.
Qed.

Section PField.
Context (host : Host).

Lemma toFixed_3_in_unit_interval (p : float) :
  in_unit_interval p = true -> has_char "." (Number_toFixed host p 3) = true.
Proof.
  unfold in_unit_interval. intros H. apply andb_prop in H. destruct H as [H0 H1].
  pose proof (Prim2SF_valid p) as Hv.
  unfold Number_toFixed.
  rewrite FloatAxioms.leb_spec in H0, H1.
  change (Prim2SF 0) with (S754_zero false) in H0.
  change (Prim2SF 1) with (S754_finite false 4503599627370496 (-52)) in H1.
  destruct (Prim2SF p) as [s|s| |s m e]; try discriminate.
  - apply place_point_has_point.
  - destruct s; discriminate.
  - destruct s; [discriminate|].
    assert (He : (e < 0)%Z).
    { unfold SFleb, SFcompare in H1.
      destruct (e ?= -52)%Z eqn:Hc.
      - apply Z.compare_eq in Hc. lia.
      - change (e < -52)%Z in Hc. lia.
      - discriminate. }
    rewrite (below_1e21 m e Hv He). cbn [String.append].
    apply place_point_has_point.
Qed.

Lemma is_nan_not_finite (p : float) : is_nan p = true -> Number_isFinite p = false.
Proof. unfold Number_isFinite, is_finite. intros ->. reflexivity. Qed.

Lemma in_unit_interval_finite (p : float) :
  in_unit_interval p = true -> Number_isFinite p = true.
Proof.
  unfold in_unit_interval, Number_isFinite. intros H. apply andb_prop in H.
  destruct H as [H0 H1]. rewrite is_finite_spec.
  rewrite FloatAxioms.leb_spec in H0, H1.
  change (Prim2SF 0) with (S754_zero false) in H0.
  change (Prim2SF 1) with (S754_finite false 4503599627370496 (-52)) in H1.
  destruct (Prim2SF p) as [s|s| |s m e]; try discriminate; try reflexivity.
  destruct s; discriminate.
Qed.

Lemma fmtP_NA_iff_nan (p : float) :
  in_unit_or_nan p = true -> (fmtP host p = "NA"%string <-> is_nan p = true).
Proof.
  unfold in_unit_or_nan. intros H. split.
  - intros HNA. destruct (is_nan p) eqn:Hn; [reflexivity|]. cbn [orb] in H. exfalso.
    unfold fmtP in HNA. rewrite (in_unit_interval_finite p H) in HNA. cbn [negb] in HNA.
    destruct (p <? 0.001); [discriminate|].
    pose proof (toFixed_3_in_unit_interval p H) as Hpt.
    rewrite <- has_char_strip_leading_0, HNA in Hpt. discriminate.
  - intros Hn. unfold fmtP. rewrite (is_nan_not_finite p Hn). reflexivity.
Qed.

(** X23: the p-value field shows "NA" exactly when the p-value is NaN: for
    every statistic and degrees of freedom, and so for the result of each of
    the four test procedures, [fmtP p = "NA"] if and only if [p] is NaN. *)
Theorem p_field_is_NA_exactly_for_nan :
  (forall t df,
      fmtP host (pTwoSidedFromT host t df) = "NA"%string <->
      is_nan (pTwoSidedFromT host t df) = true) /\
  (forall a b, fmtP host (pr_p (pairedTTest host a b)) = "NA"%string <->
               is_nan (pr_p (pairedTTest host a b)) = true) /\
  (forall arr mu, fmtP host (os_p (oneSampleT host arr mu)) = "NA"%string <->
                  is_nan (os_p (oneSampleT host arr mu)) = true) /\
  (forall a b, fmtP host (w_p (welchTTest host a b)) = "NA"%string <->
               is_nan (w_p (welchTTest host a b)) = true) /\
  (forall x y, fmtP host (pc_p (pearsonCorrelation host x y)) = "NA"%string <->
               is_nan (pc_p (pearsonCorrelation host x y)) = true).
Proof.
  assert (H : forall t df,
             fmtP host (pTwoSidedFromT host t df) = "NA"%string <->
             is_nan (pTwoSidedFromT host t df) = true)
    by (intros; apply fmtP_NA_iff_nan, pTwoSidedFromT_range).
  split; [exact H|]. repeat split; try apply H.
  all: unfold pearsonCorrelation; cbv zeta;
    destruct (pearson_sums _ _ _ _) as [[num dx] dy]; apply H.
Qed.

End PField.

(** ** The statements above at concrete inputs *)

Lemma infinite_statistic_p_zero_witness :
  studentTCdf test_host infinity 4 = 1 /\
  studentTCdf test_host neg_infinity 4 = 0 /\
  pTwoSidedFromT test_host infinity 4 = 0 /\
  pTwoSidedFromT test_host neg_infinity 4 = 0 /\
  fmtP test_host (pTwoSidedFromT test_host neg_infinity 4) = "< .001"%string.
Proof. apply (infinite_statistic_p_zero test_host 4). reflexivity. Defined.

Lemma pairedTTest_p_order_independent_witness :
  pr_p (pairedTTest test_host [3; 1; 1] [1; 2; 4]) =
  pr_p (pairedTTest test_host [1; 2; 4] [3; 1; 1]).
Proof. apply (pairedTTest_p_order_independent test_host [1; 2; 4] [3; 1; 1]). reflexivity. Defined.

Lemma pearsonCorrelation_symmetric_witness :
  pearsonCorrelation test_host [2; 4; 7; 9] [1; 2; 3; 5] =
  pearsonCorrelation test_host [1; 2; 3; 5] [2; 4; 7; 9].
Proof.
  apply (pearsonCorrelation_symmetric test_host [1; 2; 3; 5] [2; 4; 7; 9]). reflexivity.
Defined.

Lemma getGrouped_distinct_groups_witness :
  getGrouped test_host demo_rows "Lateralization Index" "Gender" "F" "M" = inr ([1; 4], [2]) /\
  (length [1; 4] + length [2] <= length demo_rows)%nat.
Proof.
  assert (H : getGrouped test_host demo_rows "Lateralization Index" "Gender" "F" "M"
              = inr ([1; 4], [2])) by (vm_compute; reflexivity).
  split; [exact H|].
  apply (getGrouped_distinct_groups test_host demo_rows "Lateralization Index" "Gender"
           "F" "M" [1; 4] [2]); [discriminate|exact H].
Defined.

Lemma invalid_parameters_are_reported_witness :
  output_with test_host (engine test_host) (initial_state independent demo_rows) =
    Some (Out_error "Select two different groups.") /\
  output_with test_host (engine test_host)
              (set_oneMu "abc" (initial_state onesample demo_rows)) =
    Some (Out_error "μ0 must be a number.").
Proof.
  split.
  - apply (invalid_parameters_are_reported test_host (engine test_host)
             (initial_state independent demo_rows));
      [discriminate|reflexivity|reflexivity].
  - assert (Hrows : rows (set_oneMu "abc" (initial_state onesample demo_rows)) <> [])
      by discriminate.
    apply (proj2 (invalid_parameters_are_reported test_host (engine test_host)
                    (set_oneMu "abc" (initial_state onesample demo_rows)) Hrows)
                 eq_refl [1; 2; 4]);
      [vm_compute; reflexivity|simpl; lia|reflexivity].
Defined.

Lemma inherited_column_is_reported_witness :
  output_with test_host (engine test_host)
              (set_paired "constructor" "RVF" (initial_state paired short_rows)) =
  Some (Out_error "(intermediate value).trim is not a function").
Proof.
  apply (inherited_column_is_reported test_host (engine test_host)
           (set_paired "constructor" "RVF" (initial_state paired short_rows)) _ _ eq_refl);
    reflexivity.
Defined.

Lemma uploaded_columns_are_read_witness :
  match output_with test_host (engine test_host)
          (set_paired "constructor" "toString"
             (initial_state paired [ {[ "constructor" := "1"; "toString" := "2" ]};
                                     {[ "constructor" := "3"; "toString" := "4" ]} ]))
  with
  | Some (Out_error message) => In message output_messages
  | _ => True
  end.
Proof.
  apply (uploaded_columns_are_read test_host (engine test_host)
           (set_paired "constructor" "toString"
              (initial_state paired [ {[ "constructor" := "1"; "toString" := "2" ]};
                                      {[ "constructor" := "3"; "toString" := "4" ]} ]))
           (String.concat (String "010" EmptyString) ["constructor,toString"; "1,2"; "3,4"])
           "constructor,toString" ["1,2"; "3,4"])%string.
  - reflexivity.
  - vm_compute. reflexivity.
  - intros col [<-|[<-|[]]]; right; split; try discriminate.
    + apply list_elem_of_In. left. reflexivity.
    + apply list_elem_of_In. right. left. reflexivity.
Defined.
